(** * eas-cli: credential prompts, Android job assembly, iOS scheme resolution

    A shallow embedding of
    [packages/eas-cli/src/credentials/utils/promptForCredentials.ts],
    of the Android [prepareJob] module and of the iOS build driver, with
    the properties that their specification states about them.

    Conventions of the embedding.
    - A JavaScript string is a [string]: a sequence of bytes holding the
      text as UTF-8.  Strings are ordered by their UTF-16 code units
      ([codeUnits]), white space is that of [String.prototype.trim]
      ([whiteSpace]), and the bytes of a file are decoded as Node does,
      with U+FFFD for what is ill-formed ([decodeUtf8]).
    - A plain JavaScript object used as a dictionary (the answer bag,
      [initialValues], the secret environment) is a [gmap string _] of its
      own properties; an absent property and [undefined] are [None].
      Storing under [__proto__] stores nothing ([setProperty]).
    - The file system is a map from paths to nodes, with the reads that
      the system rejects ([readError]).
    - An [async] function is a computation in the monad [M]: it reads and
      changes the [World] (terminal, file system, log, the once-latch of the
      warning) and ends by returning, by throwing, or with the user
      leaving the prompt. *)

From Stdlib Require Import ZArith NArith Ascii String List Strings.Byte.
From stdpp Require Import base option list gmap strings sorting lexico.

#[local] Set Warnings "-clear-no-such-hyp".

Local Open Scope N_scope.
Local Open Scope list_scope.
Local Open Scope stdpp_scope.

(** ** The world the program runs in *)

(** What the user does at the terminal: type a line and press enter, or
    move to a choice of a list and press enter. *)
Inductive UserInput :=
| Typed (line : string)
| Pick (index : nat).

Inductive FsNode :=
| RegularFile (data : list byte)
| Directory.

(** A validator of the prompt library answers [true], [false] or a
    message. *)
Inductive ValidateResult :=
| VBool (b : bool)
| VMessage (message : string).

Inductive PromptType := select | text | password.

(** What reaches the terminal, oldest first. *)
Inductive Event :=
| Warned (message : string)
| Logged (message : string)
| NewLine
| Prompted (type : PromptType) (message : string) (initial : option string)
| Reprompted (why : ValidateResult).

(** [files] is the file system as [stat] and a successful read see it;
    [readError] holds, for a path, the error with which reading it is
    rejected at the time it is read (no permission, the file gone or
    replaced since it was looked at), if there is one. *)
Record World := mkWorld {
  stdin : list UserInput;
  files : string -> option FsNode;
  readError : string -> option string;
  homeDirectory : string;
  cwd : string;
  output : list Event;
  EXPERT_PROMPT_called : bool
}.

Definition emit (e : Event) (w : World) : World :=
  mkWorld (stdin w) (files w) (readError w) (homeDirectory w) (cwd w)
          (output w ++ [e]) (EXPERT_PROMPT_called w).

Definition setStdin (rest : list UserInput) (w : World) : World :=
  mkWorld rest (files w) (readError w) (homeDirectory w) (cwd w) (output w)
          (EXPERT_PROMPT_called w).

Definition setCalled (w : World) : World :=
  mkWorld (stdin w) (files w) (readError w) (homeDirectory w) (cwd w)
          (output w) true.

(** ** Computations *)

(** How a call ends: with a value, with an exception, or with the process
    left by the user at a prompt. *)
Inductive Outcome (A : Type) :=
| Ok (a : A)
| Throw (message : string)
| Quit.
Arguments Ok {A} a.
Arguments Throw {A} message.
Arguments Quit {A}.

Definition M (A : Type) : Type := World -> Outcome A * World.

Definition ret {A} (a : A) : M A := fun w => (Ok a, w).

Definition bind {A B} (m : M A) (k : A -> M B) : M B :=
  fun w =>
    match m w with
    | (Ok a, w') => k a w'
    | (Throw e, w') => (Throw e, w')
    | (Quit, w') => (Quit, w')
    end.

Definition lift {A} (o : Outcome A) : M A := fun w => (o, w).

Definition throw {A} (message : string) : M A := lift (Throw message).

Notation "'let*' x ':=' m 'in' k" := (bind m (fun x => k))
  (at level 10, x name, m at level 200, k at level 200).

(** ** Text: UTF-8 bytes, code points, UTF-16 code units *)

(** What a byte starts: a code point of its own, a sequence of [needed]
    more bytes of which the next lies between [lower] and [upper], or
    nothing. *)
Inductive Lead :=
| Single (codePoint : N)
| Sequence (bits : N) (needed : nat) (lower upper : N)
| Stray.

Definition lead (b : N) : Lead :=
  if b <=? 127 then Single b
  else if (194 <=? b) && (b <=? 223) then Sequence (N.land b 31) 1 128 191
  else if (224 <=? b) && (b <=? 239) then
    Sequence (N.land b 15) 2 (if b =? 224 then 160 else 128)
             (if b =? 237 then 159 else 191)
  else if (240 <=? b) && (b <=? 244) then
    Sequence (N.land b 7) 3 (if b =? 240 then 144 else 128)
             (if b =? 244 then 143 else 191)
  else Stray.

(** The UTF-8 decoder: [pending] holds the bits read of an unfinished
    sequence and the number of bytes it still needs.  A byte that cannot
    continue the sequence ends it with U+FFFD and is read again as a first
    byte; an unfinished sequence at the end gives U+FFFD. *)
Fixpoint decodeFrom (pending : option (N * nat)) (lower upper : N)
    (bytes : list N) : list N :=
  match bytes with
  | [] => match pending with Some _ => [65533] | None => [] end
  | b :: rest =>
      let first :=
        match lead b with
        | Single codePoint => codePoint :: decodeFrom None 128 191 rest
        | Sequence bits needed lo hi => decodeFrom (Some (bits, needed)) lo hi rest
        | Stray => 65533 :: decodeFrom None 128 191 rest
        end in
      match pending with
      | None => first
      | Some (bits, needed) =>
          if (lower <=? b) && (b <=? upper) then
            let bits' := bits * 64 + N.land b 63 in
            match needed with
            | S (S more) => decodeFrom (Some (bits', S more)) 128 191 rest
            | _ => bits' :: decodeFrom None 128 191 rest
            end
          else 65533 :: first
      end
  end.

Definition decodeUtf8 (bytes : list N) : list N := decodeFrom None 128 191 bytes.

Definition encodeUtf8 (codePoint : N) : list N :=
  if codePoint <? 128 then [codePoint]
  else if codePoint <? 2048 then
    [192 + codePoint / 64; 128 + codePoint mod 64]
  else if codePoint <? 65536 then
    [224 + codePoint / 4096; 128 + (codePoint / 64) mod 64;
     128 + codePoint mod 64]
  else
    [240 + codePoint / 262144; 128 + (codePoint / 4096) mod 64;
     128 + (codePoint / 64) mod 64; 128 + codePoint mod 64].

Definition stringOfBytes (bytes : list N) : string :=
  string_of_list_ascii (map ascii_of_N bytes).

Definition bytesOfString (s : string) : list N :=
  map N_of_ascii (list_ascii_of_string s).

Definition stringOfCodePoints (codePoints : list N) : string :=
  stringOfBytes (flat_map encodeUtf8 codePoints).

(** The UTF-16 code units of a code point, and of the text of a string:
    what JavaScript compares strings by. *)
Definition utf16 (codePoint : N) : list N :=
  if codePoint <? 65536 then [codePoint]
  else [55296 + (codePoint - 65536) / 1024; 56320 + (codePoint - 65536) mod 1024].

Definition codeUnits (s : string) : list N :=
  flat_map utf16 (decodeUtf8 (bytesOfString s)).

(** ** JavaScript strings *)

Definition startsWith (c : ascii) (s : string) : bool :=
  match s with
  | String c' _ => bool_decide (c' = c)
  | EmptyString => false
  end.

(** The code points that [trim] removes: the white space and the line
    terminators of ECMAScript (tab, line feed, vertical tab, form feed,
    carriage return, space, no-break space, the space separators of
    Unicode, line and paragraph separator, byte order mark). *)
Definition whiteSpaceCodePoints : list N :=
  [9; 10; 11; 12; 13; 32; 160; 5760;
   8192; 8193; 8194; 8195; 8196; 8197; 8198; 8199; 8200; 8201; 8202;
   8232; 8233; 8239; 8287; 12288; 65279].

(** Their UTF-8 sequences, as they stand in a string. *)
Definition whiteSpace : list string :=
  map (fun codePoint => stringOfBytes (encodeUtf8 codePoint))
      whiteSpaceCodePoints.

(** [s] without the prefix [p], when it starts with it. *)
Fixpoint stripPrefix (p s : string) : option string :=
  match p, s with
  | EmptyString, _ => Some s
  | String a p', String b s' =>
      if bool_decide (a = b) then stripPrefix p' s' else None
  | String _ _, EmptyString => None
  end.

(** [s] without the first of the [marks] it starts with. *)
Fixpoint stripMark (marks : list string) (s : string) : option string :=
  match marks with
  | [] => None
  | mark :: others =>
      match stripPrefix mark s with
      | Some rest => Some rest
      | None => stripMark others s
      end
  end.

(** The marks at the start of [s] removed one after the other, [fuel]
    times at most. *)
Fixpoint stripMarks (marks : list string) (fuel : nat) (s : string) : string :=
  match fuel with
  | O => s
  | S fuel' =>
      match stripMark marks s with
      | Some rest => stripMarks marks fuel' rest
      | None => s
      end
  end.

Definition trimStart (s : string) : string :=
  stripMarks whiteSpace (String.length s) s.

Definition trimEnd (s : string) : string :=
  String.rev
    (stripMarks (map String.rev whiteSpace) (String.length s) (String.rev s)).

(** The strings made of [marks], one after the other. *)
Inductive Marked (marks : list string) : string -> Prop :=
| Marked_empty : Marked marks EmptyString
| Marked_more mark s :
    mark ∈ marks -> Marked marks s -> Marked marks (mark +:+ s).

(** A string of white space only. *)
Definition Blank (s : string) : Prop := Marked whiteSpace s.

(** The first character of a string. *)
Definition first (s : string) : option ascii :=
  match s with
  | String c _ => Some c
  | EmptyString => None
  end.

(** The ends of a string after its first character, the empty one left
    out. *)
Fixpoint laterParts (s : string) : list string :=
  match s with
  | String _ (String c rest as tail) => tail :: laterParts tail
  | _ => []
  end.

(** [String.prototype.trim] *)
Definition trim (s : string) : string := trimEnd (trimStart s).

Fixpoint isPrefix (p s : string) : bool :=
  match p, s with
  | EmptyString, _ => true
  | String a p', String b s' => bool_decide (a = b) && isPrefix p' s'
  | String _ _, EmptyString => false
  end.

(** [marks] is a code: no mark is empty and none starts another. *)
Definition isCode (marks : list string) : bool :=
  forallb (fun m =>
    negb (bool_decide (m = EmptyString)) &&
    forallb (fun m' => implb (isPrefix m m') (bool_decide (m = m'))) marks)
    marks.

(** No mark goes on, after its first character, with the first character
    of a mark. *)
Definition isSynchronizing (marks : list string) : bool :=
  forallb (fun m =>
    forallb (fun part =>
      forallb (fun m' => negb (bool_decide (first part = first m'))) marks)
      (laterParts m))
    marks.

(** [String.prototype.includes] *)
Fixpoint includes (sub s : string) : bool :=
  isPrefix sub s ||
  match s with
  | String _ rest => includes sub rest
  | EmptyString => false
  end.

(** [String.prototype.split] at one separator character. *)
Fixpoint splitAt (sep : ascii) (cur : string) (s : string) : list string :=
  match s with
  | EmptyString => [String.rev cur]
  | String c rest =>
      if bool_decide (c = sep) then String.rev cur :: splitAt sep EmptyString rest
      else splitAt sep (String c cur) rest
  end.

Definition splitOn (sep : ascii) (s : string) : list string :=
  splitAt sep EmptyString s.

(** [Array.prototype.join] *)
Fixpoint join (sep : string) (l : list string) : string :=
  match l with
  | [] => EmptyString
  | [s] => s
  | s :: rest => s +:+ sep +:+ join sep rest
  end.

(** ** The libraries the module imports *)

(** *** [untildify] *)

(** What [String.prototype.replace] puts in the place of a match for a
    replacement string, when the pattern has no capture group: [$$] is a
    dollar sign, [$&] the match, [$`] what is before it and [$'] what is
    after it; every other character stands for itself. *)
Fixpoint getSubstitution (matched before after replacement : string) : string :=
  match replacement with
  | String "$" (String "$" rest) =>
      String "$" (getSubstitution matched before after rest)
  | String "$" (String "&" rest) =>
      matched +:+ getSubstitution matched before after rest
  | String "$" (String "`" rest) =>
      before +:+ getSubstitution matched before after rest
  | String "$" (String "'" rest) =>
      after +:+ getSubstitution matched before after rest
  | String c rest => String c (getSubstitution matched before after rest)
  | EmptyString => EmptyString
  end.

(** [pathWithTilde.replace(/^~(?=$|\/|\\)/, homeDirectory)] when the home
    directory is a non-empty string, [pathWithTilde] otherwise. *)
Definition untildify (pathWithTilde : string) (w : World) : string :=
  if bool_decide (homeDirectory w = EmptyString) then pathWithTilde
  else
    match pathWithTilde with
    | String "~" rest =>
        match rest with
        | EmptyString | String "/" _ | String "\" _ =>
            getSubstitution "~" EmptyString rest (homeDirectory w) +:+ rest
        | _ => pathWithTilde
        end
    | _ => pathWithTilde
    end.

(** *** [path] (POSIX) *)

Definition isAbsolute (p : string) : bool := startsWith "/" p.

(** [normalizeString] of Node's [path], on the segments between the
    slashes: empty segments and [.] are dropped, [..] removes the segment
    before it, and is kept at the start only when [allowAboveRoot].
    [done] holds the segments kept so far, last one first. *)
Fixpoint normalizeSegments (allowAboveRoot : bool) (done : list string)
    (segments : list string) : list string :=
  match segments with
  | [] => rev done
  | seg :: rest =>
      if bool_decide (seg = EmptyString) || bool_decide (seg = ".") then
        normalizeSegments allowAboveRoot done rest
      else if bool_decide (seg = "..") then
        match done with
        | last :: before =>
            if bool_decide (last = "..")
            then normalizeSegments allowAboveRoot (".." :: done) rest
            else normalizeSegments allowAboveRoot before rest
        | [] =>
            if allowAboveRoot
            then normalizeSegments allowAboveRoot [".."] rest
            else normalizeSegments allowAboveRoot [] rest
        end
      else normalizeSegments allowAboveRoot (seg :: done) rest
  end.

Definition normalizeString (p : string) (allowAboveRoot : bool) : string :=
  join "/" (normalizeSegments allowAboveRoot [] (splitOn "/" p)).

(** [path.resolve(p)] with one argument: [p], and the working directory
    before it when [p] is not absolute, empty strings skipped. *)
Definition resolve (p : string) (w : World) : string :=
  let resolvedPath :=
    if bool_decide (p = EmptyString) then EmptyString else p +:+ "/" in
  let resolvedAbsolute := isAbsolute p in
  let resolvedPath :=
    if resolvedAbsolute || bool_decide (cwd w = EmptyString) then resolvedPath
    else cwd w +:+ "/" +:+ resolvedPath in
  let resolvedAbsolute := resolvedAbsolute || isAbsolute (cwd w) in
  let normalized := normalizeString resolvedPath (negb resolvedAbsolute) in
  if resolvedAbsolute then "/" +:+ normalized
  else if bool_decide (normalized = EmptyString) then "." else normalized.

(** *** [fs-extra] *)

Inductive Encoding := base64 | utf8.

Definition base64Alphabet : string :=
  "ABCDEFGHIJKLMNOPQRSTUVWXYZabcdefghijklmnopqrstuvwxyz0123456789+/".

Definition base64Digit (n : N) : ascii :=
  default "="%char (String.get (N.to_nat (n mod 64)) base64Alphabet).

Fixpoint toBase64 (data : list byte) : string :=
  match data with
  | [] => EmptyString
  | [a] =>
      let n := Byte.to_N a * 16 in
      String (base64Digit (n / 64)) (String (base64Digit n) "==")
  | [a; b] =>
      let n := (Byte.to_N a * 256 + Byte.to_N b) * 4 in
      String (base64Digit (n / 4096)) (String (base64Digit (n / 64))
        (String (base64Digit n) "="))
  | a :: b :: c :: rest =>
      let n := Byte.to_N a * 65536 + Byte.to_N b * 256 + Byte.to_N c in
      String (base64Digit (n / 262144)) (String (base64Digit (n / 4096))
        (String (base64Digit (n / 64)) (String (base64Digit n) (toBase64 rest))))
  end.

(** [Buffer.toString(encoding)]: as [utf8] the bytes are decoded, every
    ill-formed sequence becoming U+FFFD, and the text is held by the
    string as UTF-8 again. *)
Definition decodeAs (encoding : Encoding) (data : list byte) : string :=
  match encoding with
  | base64 => toBase64 data
  | utf8 => stringOfCodePoints (decodeUtf8 (map Byte.to_N data))
  end.

(** [fs.readFile(path, encoding)]: rejected with the error of the world
    for this path, if there is one, and on what is not a regular file. *)
Definition readFile (path : string) (encoding : Encoding) : M string :=
  fun w =>
    match readError w path with
    | Some e => (Throw e, w)
    | None =>
        match files w path with
        | Some (RegularFile data) => (Ok (decodeAs encoding data), w)
        | Some Directory =>
            (Throw "EISDIR: illegal operation on a directory, read", w)
        | None => (Throw "ENOENT: no such file or directory", w)
        end
    end.

(** [fs.stat(path)], and [isFile()] of its result. *)
Definition stat (path : string) : M FsNode :=
  fun w =>
    match files w path with
    | Some node => (Ok node, w)
    | None => (Throw "ENOENT: no such file or directory", w)
    end.

Definition isFile (stats : FsNode) : bool :=
  match stats with
  | RegularFile _ => true
  | Directory => false
  end.

(** *** [log] *)

Definition log_warn (message : string) : M unit :=
  fun w => (Ok tt, emit (Warned message) w).

Definition log (message : string) : M unit :=
  fun w => (Ok tt, emit (Logged message) w).

Definition log_newLine : M unit :=
  fun w => (Ok tt, emit NewLine w).

(** [chalk.bold]: the styling of the terminal is not kept. *)
Definition chalk_bold (s : string) : string := s.

(** ** The prompt primitive *)

Record Choice (A : Type) := mkChoice { title : string; value : A }.
Arguments mkChoice {A} title value.
Arguments title {A} c.
Arguments value {A} c.

(** Modelled from the spec: the question descriptor of [promptAsync],
    [{ type, name, message, initial?, choices?, format?, validate? }], as
    the module builds it: a list to choose from, or a line of text (shown
    or masked). *)
Inductive PromptQuestion : Type -> Type :=
| SelectQuestion {A : Type} (name message : string)
    (choices : list (Choice A)) : PromptQuestion A
| InputQuestion (type : PromptType) (name message : string)
    (initial : option string)
    (format : option (string -> World -> string))
    (validate : option (string -> World -> ValidateResult))
  : PromptQuestion string.

Definition initial {A} (q : PromptQuestion A) : option string :=
  match q with
  | SelectQuestion _ _ _ => None
  | InputQuestion _ _ _ i _ _ => i
  end.

Definition promptType {A} (q : PromptQuestion A) : PromptType :=
  match q with
  | SelectQuestion _ _ _ => select
  | InputQuestion t _ _ _ _ _ => t
  end.

(** Modelled from the spec: a [select] question.  The list waits until
    one of its choices is picked; lines typed meanwhile are ignored. *)
Fixpoint selectLoop {A} (choices : list (Choice A)) (inputs : list UserInput)
    : Outcome A * list UserInput :=
  match inputs with
  | [] => (Quit, [])
  | Pick i :: rest =>
      match choices !! i with
      | Some c => (Ok (value c), rest)
      | None => selectLoop choices rest
      end
  | Typed _ :: rest => selectLoop choices rest
  end.

(** Modelled from the spec: a [text] or [password] question.  A line is
    taken as typed, or as the initial value when it is empty; [format] is
    applied to the raw input before validation; when [validate] returns
    anything but [true], the same question is issued again. *)
Fixpoint inputLoop (initial : option string)
    (format : option (string -> World -> string))
    (validate : option (string -> World -> ValidateResult))
    (inputs : list UserInput) (w : World) : Outcome string * World :=
  match inputs with
  | [] => (Quit, setStdin [] w)
  | Pick _ :: rest => inputLoop initial format validate rest w
  | Typed line :: rest =>
      let raw :=
        if bool_decide (line = EmptyString) then default EmptyString initial
        else line in
      let formatted := match format with Some f => f raw w | None => raw end in
      match match validate with Some v => v formatted w | None => VBool true end with
      | VBool true => (Ok formatted, setStdin rest w)
      | failure =>
          inputLoop initial format validate rest (emit (Reprompted failure) w)
      end
  end.

(** Modelled from the spec: [promptAsync] of [../../prompts], whose source
    is not part of the module.  It shows the question and returns the
    answer: the value of the chosen choice, or the formatted line that
    passed validation.  It ends with [Quit] when the user leaves. *)
Definition promptAsync {A} (q : PromptQuestion A) : M A :=
  match q in PromptQuestion A return M A with
  | SelectQuestion _ m choices => fun w =>
      let w1 := emit (Prompted select m None) w in
      let (answer, rest) := selectLoop choices (stdin w1) in
      (answer, setStdin rest w1)
  | InputQuestion t _ m i format validate => fun w =>
      let w1 := emit (Prompted t m i) w in
      inputLoop i format validate (stdin w1) w1
  end.

(** ** promptForCredentials.ts *)

Inductive QuestionType := file | string_ | password_.

Module Question.
Record t := mk {
  field : string;
  question : string;
  type : QuestionType;
  base64Encode : option bool
}.
End Question.

Module ProvideMethodQuestion.
Record t := mk {
  question : option string;
  expoGenerated : option string;
  userProvided : option string
}.
End ProvideMethodQuestion.

(** [transformResultAsync] resolves to a value or rejects; it does not
    touch the terminal. *)
Module CredentialSchema.
Record t (T : Type) := mk {
  name : string;
  questions : list Question.t;
  provideMethodQuestion : option ProvideMethodQuestion.t;
  transformResultAsync : option (gmap string string -> Outcome T)
}.
Arguments mk {T} name questions provideMethodQuestion transformResultAsync.
Arguments name {T} _.
Arguments questions {T} _.
Arguments provideMethodQuestion {T} _.
Arguments transformResultAsync {T} _.
End CredentialSchema.

(** What [getCredentialsFromUserAsync] resolves to: the result of the
    transform, or the answer bag itself under the type [T]. *)
Inductive Bundle (T : Type) :=
| Transformed (result : T)
| Raw (results : gmap string string).
Arguments Transformed {T} result.
Arguments Raw {T} results.

Definition EXPERT_PROMPT_message : string := "
In this mode, we won't be able to make sure that your credentials are valid.
Please double check that you're uploading valid files for your app otherwise you may encounter strange errors!

When building for IOS make sure you've created your App ID on the Apple Developer Portal, that your App ID
is in app.json as `bundleIdentifier`, and that the provisioning profile you
upload matches that Team ID and App ID.
".

(** [once(() => log.warn(...))]: the first call runs the function, every
    later call does nothing. *)
Definition EXPERT_PROMPT : M unit :=
  fun w =>
    if EXPERT_PROMPT_called w then (Ok tt, w)
    else log_warn EXPERT_PROMPT_message (setCalled w).

Definition produceAbsolutePath (filePath : string) (w : World) : string :=
  let untildified := untildify (trim filePath) w in
  if negb (isAbsolute untildified) then resolve untildified w else untildified.

Definition validateNonEmptyInput (val : string) : bool :=
  negb (bool_decide (val = EmptyString)).

Definition validateExistingFileAsync (filePath : string) (w : World)
    : ValidateResult :=
  match stat filePath w with
  | (Ok stats, _) =>
      if isFile stats then VBool true else VMessage "Input is not a file."
  | _ => VMessage "File does not exist."
  end.

Definition buildQuestionObject (definition : Question.t)
    (initialValue : option string) : PromptQuestion string :=
  match Question.type definition with
  | string_ =>
      InputQuestion text "input" (Question.question definition) initialValue
        None (Some (fun val _ => VBool (validateNonEmptyInput val)))
  | file =>
      InputQuestion text "input" (Question.question definition) None
        (Some produceAbsolutePath) (Some validateExistingFileAsync)
  | password_ =>
      InputQuestion password "input" (Question.question definition) None
        None (Some (fun val _ => VBool (validateNonEmptyInput val)))
  end.

Definition processAnswerAsync (definition : Question.t) (input : string)
    : M string :=
  match Question.type definition with
  | file =>
      readFile input
        (if default false (Question.base64Encode definition) then base64
         else utf8)
  | _ => ret input
  end.

Definition askQuestionAndProcessAnswerAsync (definition : Question.t)
    (initialValue : option string) : M string :=
  let questionObject := buildQuestionObject definition initialValue in
  let* input := promptAsync questionObject in
  processAnswerAsync definition input.

Definition willUserProvideCredentialsAsync {T} (schema : CredentialSchema.t T)
    : M bool :=
  let provideMethodQuestion := CredentialSchema.provideMethodQuestion schema in
  let* answer := promptAsync
    (SelectQuestion "answer"
       (default ("Will you provide your own " +:+ CredentialSchema.name schema +:+ "?")
          (provideMethodQuestion ≫= ProvideMethodQuestion.question))
       [ mkChoice
           (default "Let EAS handle the process"
              (provideMethodQuestion ≫= ProvideMethodQuestion.expoGenerated))
           false;
         mkChoice
           (default "I want to upload my own file"
              (provideMethodQuestion ≫= ProvideMethodQuestion.userProvided))
           true ]) in
  ret answer.

(** The member names of [Object.prototype], which every plain object
    inherits. *)
Definition objectPrototypeMembers : list string :=
  [ "constructor"; "__defineGetter__"; "__defineSetter__"; "hasOwnProperty";
    "__lookupGetter__"; "__lookupSetter__"; "isPrototypeOf";
    "propertyIsEnumerable"; "toString"; "valueOf"; "__proto__";
    "toLocaleString" ].

(** [object[key] = value] on a plain object and for a string [value]: the
    property is created or overwritten, except for the key [__proto__],
    the accessor inherited from [Object.prototype], whose setter leaves
    the object as it is when the value is not an object. *)
Definition setProperty (object : gmap string string) (key value : string)
    : gmap string string :=
  if bool_decide (key = "__proto__") then object else <[key := value]> object.

(** The [for ... of] loop over the questions, [results] being the bag
    filled so far.  [initialValues] is read at its own properties: for a
    field that [objectPrototypeMembers] names and [initialValues] does not
    hold, the source reads the inherited member, which is not a string. *)
Fixpoint askQuestions (questions : list Question.t)
    (initialValues : gmap string string) (results : gmap string string)
    : M (gmap string string) :=
  match questions with
  | [] => ret results
  | question :: rest =>
      let* answer :=
        askQuestionAndProcessAnswerAsync question
          (initialValues !! Question.field question) in
      askQuestions rest initialValues
        (setProperty results (Question.field question) answer)
  end.

Definition getCredentialsFromUserAsync {T}
    (credentialsSchema : CredentialSchema.t T)
    (initialValues : gmap string string) : M (Bundle T) :=
  let* results :=
    askQuestions (CredentialSchema.questions credentialsSchema) initialValues ∅ in
  match CredentialSchema.transformResultAsync credentialsSchema with
  | Some transformResultAsync =>
      let* result := lift (transformResultAsync results) in
      ret (Transformed result)
  | None => ret (Raw results)
  end.

Definition askForUserProvidedAsync {T} (schema : CredentialSchema.t T)
    (initialValues : gmap string string) : M (option (Bundle T)) :=
  let* provides := willUserProvideCredentialsAsync schema in
  if provides then
    let* _ := EXPERT_PROMPT in
    let* credentials := getCredentialsFromUserAsync schema initialValues in
    ret (Some credentials)
  else ret None.

(** ** The build jobs *)

(** The [Workflow] enumeration has the members [Generic] and [Managed];
    at run time the field of a build profile may hold any other value. *)
Inductive Workflow :=
| Generic
| Managed
| OtherWorkflow (raw : string).

Global Instance Workflow_eq_dec : EqDecision Workflow.
Proof. solve_decision. Defined.

Inductive Platform := Android | iOS.

Module Keystore.
Record t := mk {
  keystore : string;
  keystorePassword : string;
  keyAlias : string;
  keyPassword : string
}.
End Keystore.

Module AndroidCredentials.
Record t := mk { keystore : Keystore.t }.
End AndroidCredentials.

Module JobData.
Record t := mk {
  archiveUrl : string;
  credentials : option AndroidCredentials.t
}.
End JobData.

(** [Android.Keystore] of the job format. *)
Module JobKeystore.
Record t := mk {
  dataBase64 : string;
  keystorePassword : string;
  keyAlias : string;
  keyPassword : string
}.
End JobKeystore.

Module BuildCredentials.
Record t := mk { keystore : JobKeystore.t }.
End BuildCredentials.

Module Secrets.
Record t := mk {
  buildCredentials : option BuildCredentials.t;
  secretEnvs : option (gmap string string)
}.
End Secrets.

Module CommonJobProperties.
Record t := mk {
  platform : Platform;
  projectUrl : string;
  secrets : Secrets.t
}.
End CommonJobProperties.

(** The job before [sanitizeJob]: the common properties and those of the
    workflow. *)
Module PartialJob.
Record t := mk {
  common : CommonJobProperties.t;
  type : Workflow;
  gradleCommand : option string;
  artifactPath : option string;
  projectRootDirectory : string
}.
End PartialJob.

Module BuildProfile.
Record t := mk {
  workflow : Workflow;
  gradleCommand : option string;
  artifactPath : option string;
  scheme : option string
}.
End BuildProfile.

Module CommandContext.
Record t := mk {
  projectDir : string;
  nonInteractive : bool
}.
End CommandContext.

Module BuildContext.
Record t := mk {
  commandCtx : CommandContext.t;
  buildProfile : BuildProfile.t;
  platform : Platform
}.
End BuildContext.

Module ProjectConfiguration.
Record t := mk { iosNativeProjectScheme : option string }.
End ProjectConfiguration.

(** How JavaScript orders two strings with [<] and [>]: by their UTF-16
    code units, the first difference deciding and a proper prefix coming
    first.  Byte strings that hold the same text, of which one at least
    is no UTF-8 and stands for no JavaScript string, are told apart by
    their bytes. *)
Definition sortKey (s : string) : list N * list N :=
  (codeUnits s, bytesOfString s).

Definition codeUnitLeb (a b : string) : bool :=
  match trichotomyT lexico (sortKey a) (sortKey b) with
  | inright _ => false
  | inleft _ => true
  end.

Definition codeUnitLe (a b : string) : Prop := Is_true (codeUnitLeb a b).

Global Instance codeUnitLe_dec : RelDecision codeUnitLe.
Proof. intros a b. unfold codeUnitLe. apply _. Defined.

(** [lodash/sortBy] of strings: the list in ascending order. *)
Definition sortBy (l : list string) : list string := merge_sort codeUnitLe l.

(** [process.cwd()] *)
Definition process_cwd : M string := fun w => (Ok (cwd w), w).

(** [a || b] on strings: [b] when [a] is the empty string. *)
Definition orElse (a b : string) : string :=
  if bool_decide (a = EmptyString) then b else a.

(** A value inside a template literal. *)
Definition interpolate (v : option string) : string := default "undefined" v.

Section Build.

(** The collaborators of the two build modules, which they import. *)
Variable Job : Type.
Variable EasConfig : Type.
Variable sanitizeJob : PartialJob.t -> Outcome Job.
Variable readSecretEnvsAsync : string -> M (option (gmap string string)).
Variable gitRootDirectoryAsync : M string.
Variable relative : string -> string -> string.
Variable getSchemesFromXcodeproj : string -> M (list string).
Variable syncProjectConfigurationAsync : string -> M unit.
Variable createBuildContext :
  CommandContext.t -> Platform -> EasConfig -> string -> BuildContext.t.
(** [startBuildForPlatformAsync], with the callbacks it is given here. *)
Variable startBuildForPlatformAsync :
  BuildContext.t -> ProjectConfiguration.t -> M string.

(** *** android/prepareJob.ts *)

Definition prepareJobCommonAsync (ctx : BuildContext.t) (jobData : JobData.t)
    : M CommonJobProperties.t :=
  let* secretEnvs :=
    readSecretEnvsAsync (CommandContext.projectDir (BuildContext.commandCtx ctx)) in
  let credentials := JobData.credentials jobData in
  let buildCredentials :=
    match credentials with
    | Some credentials =>
        Some (BuildCredentials.mk
          (JobKeystore.mk
            (Keystore.keystore (AndroidCredentials.keystore credentials))
            (Keystore.keystorePassword (AndroidCredentials.keystore credentials))
            (Keystore.keyAlias (AndroidCredentials.keystore credentials))
            (Keystore.keyPassword (AndroidCredentials.keystore credentials))))
    | None => None
    end in
  ret (CommonJobProperties.mk Android (JobData.archiveUrl jobData)
         (Secrets.mk buildCredentials secretEnvs)).

Definition prepareGenericJobAsync (ctx : BuildContext.t) (jobData : JobData.t)
    (buildProfile : BuildProfile.t) : M PartialJob.t :=
  let* root := gitRootDirectoryAsync in
  let* here := process_cwd in
  let projectRootDirectory := orElse (relative root here) "." in
  let* common := prepareJobCommonAsync ctx jobData in
  ret (PartialJob.mk common Generic
         (BuildProfile.gradleCommand buildProfile)
         (BuildProfile.artifactPath buildProfile)
         projectRootDirectory).

Definition prepareManagedJobAsync (ctx : BuildContext.t) (jobData : JobData.t)
    (buildProfile : BuildProfile.t) : M PartialJob.t :=
  let* root := gitRootDirectoryAsync in
  let* here := process_cwd in
  let projectRootDirectory := orElse (relative root here) "." in
  let* common := prepareJobCommonAsync ctx jobData in
  ret (PartialJob.mk common Managed None None projectRootDirectory).

Definition prepareJobAsync (ctx : BuildContext.t) (jobData : JobData.t)
    : M Job :=
  if decide (BuildProfile.workflow (BuildContext.buildProfile ctx) = Generic)
  then
    let* partialJob :=
      prepareGenericJobAsync ctx jobData (BuildContext.buildProfile ctx) in
    lift (sanitizeJob partialJob)
  else if decide (BuildProfile.workflow (BuildContext.buildProfile ctx) = Managed)
  then
    let* partialJob :=
      prepareManagedJobAsync ctx jobData (BuildContext.buildProfile ctx) in
    lift (sanitizeJob partialJob)
  else throw "Unknown workflow. Shouldn't happen".

(** *** ios/build.ts *)

(** The scheme it resolves to is a string, or [undefined] ([None]) when
    an index past the end of the array is read. *)
Definition resolveSchemeAsync (ctx : BuildContext.t) : M (option string) :=
  let* schemes :=
    getSchemesFromXcodeproj
      (CommandContext.projectDir (BuildContext.commandCtx ctx)) in
  if bool_decide (length schemes = 1%nat) then ret (schemes !! 0%nat)
  else
    let sortedSchemes := sortBy schemes in
    let* _ := log_newLine in
    let* _ := log ("We've found multiple schemes in your Xcode project: "
                     +:+ chalk_bold (join ", " sortedSchemes)) in
    let* _ := log ("You can specify the scheme you want to build at "
                     +:+ chalk_bold "builds.ios.PROFILE_NAME.scheme"
                     +:+ " in eas.json.") in
    if CommandContext.nonInteractive (BuildContext.commandCtx ctx) then
      let withoutTvOS :=
        filter (fun i => Is_true (negb (includes "tvOS" i))) sortedSchemes in
      let scheme :=
        if bool_decide (0 < length withoutTvOS)%nat then withoutTvOS !! 0%nat
        else sortedSchemes !! 0%nat in
      let* _ := log ("You've run Expo CLI in non-interactive mode, choosing the "
                       +:+ chalk_bold (interpolate scheme) +:+ " scheme.") in
      let* _ := log_newLine in
      ret scheme
    else
      let* selectedScheme := promptAsync
        (SelectQuestion "selectedScheme"
           "Which scheme would you like to build now?"
           (map (fun scheme => mkChoice scheme scheme) sortedSchemes)) in
      let* _ := log_newLine in
      ret (Some selectedScheme).

Definition startIosBuildAsync (commandCtx : CommandContext.t)
    (easConfig : EasConfig) (projectId : string) : M string :=
  let buildCtx := createBuildContext commandCtx iOS easConfig projectId in
  let workflow := BuildProfile.workflow (BuildContext.buildProfile buildCtx) in
  let* iosNativeProjectScheme :=
    if decide (workflow = Generic) then
      match BuildProfile.scheme (BuildContext.buildProfile buildCtx) with
      | Some scheme => ret (Some scheme)
      | None => resolveSchemeAsync buildCtx
      end
    else ret None in
  let* _ :=
    if decide (workflow = Generic)
    then syncProjectConfigurationAsync (CommandContext.projectDir commandCtx)
    else ret tt in
  startBuildForPlatformAsync buildCtx
    (ProjectConfiguration.mk iosNativeProjectScheme).

End Build.

(** ** What is observed of a run *)

Global Instance ValidateResult_eq_dec : EqDecision ValidateResult.
Proof. solve_decision. Defined.

Global Instance PromptType_eq_dec : EqDecision PromptType.
Proof. solve_decision. Defined.

Global Instance Event_eq_dec : EqDecision Event.
Proof. solve_decision. Defined.

(** How often the warning about manual credentials was printed. *)
Definition warnings (w : World) : nat :=
  length (filter (fun e => e = Warned EXPERT_PROMPT_message) (output w)).

Definition isPrompted (e : Event) : bool :=
  match e with Prompted _ _ _ => true | _ => false end.

(** The questions asked so far, oldest first. *)
Definition asked (w : World) : list Event :=
  List.filter isPrompted (output w).

(** [quiet w w']: from [w] to [w'] no warning was printed and the latch
    was not touched. *)
Definition quiet (w w' : World) : Prop :=
  warnings w' = warnings w /\
  EXPERT_PROMPT_called w' = EXPERT_PROMPT_called w.

Definition Quiet {A} (m : M A) : Prop := forall w, quiet w (m w).2.

(** The text of the opt-in question of a schema. *)
Definition optInMessage {T} (schema : CredentialSchema.t T) : string :=
  default ("Will you provide your own " +:+ CredentialSchema.name schema +:+ "?")
    (CredentialSchema.provideMethodQuestion schema ≫= ProvideMethodQuestion.question).

(** A call of [askForUserProvidedAsync], at any credential type. *)
Inductive Call :=
| call {T : Type} (schema : CredentialSchema.t T)
    (initialValues : gmap string string).

(** What is observed of one call: whether the user accepted to provide
    the credentials, and how many times the warning was printed during
    the call. *)
Record CallReport := mkReport { accepted : bool; warned : nat }.

Definition isTrue (o : Outcome bool) : bool :=
  match o with Ok true => true | _ => false end.

(** The calls of one process, one after the other in the same world; a
    call that does not return hands the world on like any other, so that
    every continuation of the process is covered. *)
Fixpoint runCalls (calls : list Call) (w : World) : list CallReport * World :=
  match calls with
  | [] => ([], w)
  | call schema initialValues :: rest =>
      let w' := (askForUserProvidedAsync schema initialValues w).2 in
      let report :=
        mkReport (isTrue (willUserProvideCredentialsAsync schema w).1)
                 (warnings w' - warnings w) in
      let (reports, final) := runCalls rest w' in
      (report :: reports, final)
  end.

(** [1] at the first [true] of the list, [0] everywhere else. *)
Fixpoint firstOnly (l : list bool) : list nat :=
  match l with
  | [] => []
  | true :: rest => 1%nat :: map (fun _ => 0%nat) rest
  | false :: rest => 0%nat :: firstOnly rest
  end.

(** The answers of the questions, resolved one per question in the order
    of the schema. *)
Fixpoint resolveAnswers (questions : list Question.t)
    (initialValues : gmap string string) : M (list string) :=
  match questions with
  | [] => ret []
  | question :: rest =>
      let* answer :=
        askQuestionAndProcessAnswerAsync question
          (initialValues !! Question.field question) in
      let* answers := resolveAnswers rest initialValues in
      ret (answer :: answers)
  end.

(** The bag [results] after the answers were stored under the fields of
    their questions, first question first. *)
Fixpoint store (results : gmap string string) (questions : list Question.t)
    (answers : list string) : gmap string string :=
  match questions, answers with
  | question :: questions', answer :: answers' =>
      store (setProperty results (Question.field question) answer)
            questions' answers'
  | _, _ => results
  end.

Definition mapOutcome {A B} (f : A -> B) (o : Outcome A) : Outcome B :=
  match o with
  | Ok a => Ok (f a)
  | Throw e => Throw e
  | Quit => Quit
  end.

Definition isReprompted (e : Event) : bool :=
  match e with Reprompted _ => true | _ => false end.

(** The question of a schema as it appears on the terminal. *)
Definition promptEvent (definition : Question.t)
    (initialValue : option string) : Event :=
  Prompted
    (match Question.type definition with
     | password_ => password
     | file | string_ => text
     end)
    (Question.question definition)
    (match Question.type definition with
     | string_ => initialValue
     | file | password_ => None
     end).

(** An event of a credential question: it is shown, or asked again. *)
Definition isQuestion (e : Event) : bool := isPrompted e || isReprompted e.

(** Two runs that end in the same way without returning. *)
Definition sameFailure {A B} (o : Outcome A) (o' : Outcome B) : Prop :=
  match o, o' with
  | Throw e, Throw e' => e = e'
  | Quit, Quit => True
  | _, _ => False
  end.

(** ** A project to run the functions on *)

Module Sample.

(** A home directory with a keystore of three bytes, and the project in
    it as working directory. *)
Definition files (path : string) : option FsNode :=
  if bool_decide (path = "/home/dev/release.keystore")
  then Some (RegularFile ["M"; "a"; "n"]%byte)
  else if bool_decide (path = "/home/dev/notes.txt")
  then Some (RegularFile ["h"; "i"]%byte)
  else if bool_decide (path = "/home/dev") then Some Directory
  else None.

Definition world (inputs : list UserInput) : World :=
  mkWorld inputs files (fun _ => None) "/home/dev" "/home/dev/app" [] false.

Definition keystoreQuestion : Question.t :=
  Question.mk "keystore" "Path to the Keystore file." file (Some true).

Definition keystoreSchema : CredentialSchema.t unit :=
  CredentialSchema.mk "Android Keystore"
    [ keystoreQuestion;
      Question.mk "keystorePassword" "Keystore password" password_ None;
      Question.mk "keyAlias" "Key alias" string_ None;
      Question.mk "keyPassword" "Key password" password_ None ]
    None None.

Definition initialValues : gmap string string :=
  {[ "keyAlias" := "upload"; "keystorePassword" := "secret" ]}.

(** A schema with a field that plain objects inherit as an accessor. *)
Definition protoSchema : CredentialSchema.t unit :=
  CredentialSchema.mk "Token"
    [ Question.mk "__proto__" "Token" string_ None ] None None.

(** The user accepts, gives a directory and then the keystore, a
    password after an empty line, the initial alias, a password. *)
Definition answers : list UserInput :=
  [ Pick 1%nat; Typed "~"; Typed " ~/release.keystore "; Typed "";
    Typed "p1"; Typed ""; Typed "p2" ].

Definition calls : list Call :=
  [ call keystoreSchema ∅; call keystoreSchema initialValues;
    call keystoreSchema ∅ ].

(** A process in which the user declines once and then accepts twice. *)
Definition session : World :=
  world (Pick 0%nat :: answers ++ answers).

Definition credentials : AndroidCredentials.t :=
  AndroidCredentials.mk (Keystore.mk "BASE64" "p1" "a" "p2").

Definition jobData : JobData.t :=
  JobData.mk "https://x/archive.tar.gz" (Some credentials).

Definition context (workflow : Workflow) (nonInteractive : bool)
    : BuildContext.t :=
  BuildContext.mk (CommandContext.mk "/home/dev/app" nonInteractive)
    (BuildProfile.mk workflow (Some "assembleRelease") None None) Android.

Definition sanitizeJob (job : PartialJob.t) : Outcome PartialJob.t := Ok job.

Definition readSecretEnvsAsync (projectDir : string)
    : M (option (gmap string string)) := ret None.

Definition gitRootDirectoryAsync : M string := ret "/home/dev/app".

Definition relative (from to : string) : string :=
  if bool_decide (from = to) then EmptyString else to.

Definition getSchemesFromXcodeproj (schemes : list string)
    (projectDir : string) : M (list string) := ret schemes.

Definition syncProjectConfigurationAsync (projectDir : string) : M unit :=
  ret tt.

Definition createBuildContext (commandCtx : CommandContext.t)
    (platform : Platform) (easConfig : unit) (projectId : string)
    : BuildContext.t :=
  BuildContext.mk commandCtx (BuildProfile.mk Generic None None None) platform.

Definition createBuildContextWith (buildProfile : BuildProfile.t)
    (commandCtx : CommandContext.t) (platform : Platform) (easConfig : unit)
    (projectId : string) : BuildContext.t :=
  BuildContext.mk commandCtx buildProfile platform.

Definition startBuildForPlatformAsync (ctx : BuildContext.t)
    (projectConfiguration : ProjectConfiguration.t) : M string :=
  ret ("build of " +:+
       interpolate (ProjectConfiguration.iosNativeProjectScheme projectConfiguration)).

End Sample.

(** * Properties *)

(** ** What a computation leaves alone *)

Lemma quiet_refl w : quiet w w.
Proof. by split. Qed.

Lemma quiet_trans w1 w2 w3 : quiet w1 w2 -> quiet w2 w3 -> quiet w1 w3.
Proof. intros [H1 H2] [H3 H4]. split; congruence. Qed.

Lemma warnings_emit e w :
  warnings (emit e w) =
  (warnings w + if decide (e = Warned EXPERT_PROMPT_message) then 1 else 0)%nat.
Proof.
  unfold warnings, emit; simpl. rewrite filter_app, length_app. f_equal.
  rewrite filter_cons, filter_nil. by case_decide.
Qed.

Lemma quiet_emit e w : e <> Warned EXPERT_PROMPT_message -> quiet w (emit e w).
Proof.
  intros He. split; [|done]. rewrite warnings_emit.
  case_decide; [done | lia].
Qed.

Lemma quiet_setStdin rest w : quiet w (setStdin rest w).
Proof. by split. Qed.

Create HintDb quiet.
#[local] Hint Resolve quiet_refl quiet_emit quiet_setStdin : quiet.

Lemma Quiet_ret {A} (a : A) : Quiet (ret a).
Proof. intros w. apply quiet_refl. Qed.

Lemma Quiet_lift {A} (o : Outcome A) : Quiet (lift o).
Proof. intros w. apply quiet_refl. Qed.

Lemma Quiet_bind {A B} (m : M A) (k : A -> M B) :
  Quiet m -> (forall a, Quiet (k a)) -> Quiet (bind m k).
Proof.
  intros Hm Hk w. unfold bind. specialize (Hm w).
  destruct (m w) as [[a| |] w']; simpl in *; [|done..].
  eapply quiet_trans; [exact Hm | apply Hk].
Qed.

Lemma quiet_inputLoop i format validate inputs w :
  quiet w (inputLoop i format validate inputs w).2.
Proof.
  revert w. induction inputs as [|[line|n] rest IH]; intros w; simpl.
  - auto with quiet.
  - destruct (match validate with Some v => _ | None => _ end) as [[|]|msg];
      first [ by auto with quiet
            | eapply quiet_trans; [apply quiet_emit | apply IH]; done ].
  - apply IH.
Qed.

Lemma Quiet_promptAsync {A} (q : PromptQuestion A) : Quiet (promptAsync q).
Proof.
  intros w. destruct q as [A name m choices | t name m i format validate]; simpl.
  - destruct (selectLoop choices (stdin w)) as [answer rest]; simpl.
    eapply quiet_trans; [apply quiet_emit | apply quiet_setStdin]; done.
  - eapply quiet_trans; [apply quiet_emit | apply quiet_inputLoop]; done.
Qed.

Lemma Quiet_readFile path encoding : Quiet (readFile path encoding).
Proof.
  intros w. unfold readFile. destruct (readError w path);
    [|destruct (files w path) as [[data|]|]]; apply quiet_refl.
Qed.

Lemma Quiet_askQuestionAndProcessAnswerAsync definition initialValue :
  Quiet (askQuestionAndProcessAnswerAsync definition initialValue).
Proof.
  apply Quiet_bind; [apply Quiet_promptAsync|].
  intros input. unfold processAnswerAsync.
  destruct (Question.type definition);
    first [apply Quiet_readFile | apply Quiet_ret].
Qed.

Lemma Quiet_askQuestions questions initialValues results :
  Quiet (askQuestions questions initialValues results).
Proof.
  revert results. induction questions as [|q rest IH]; intros results; simpl.
  - apply Quiet_ret.
  - apply Quiet_bind; [apply Quiet_askQuestionAndProcessAnswerAsync|].
    intros answer. apply IH.
Qed.

Lemma Quiet_getCredentialsFromUserAsync {T} (schema : CredentialSchema.t T)
    initialValues :
  Quiet (getCredentialsFromUserAsync schema initialValues).
Proof.
  apply Quiet_bind; [apply Quiet_askQuestions|].
  intros results. destruct (CredentialSchema.transformResultAsync schema).
  - apply Quiet_bind; [apply Quiet_lift | intros; apply Quiet_ret].
  - apply Quiet_ret.
Qed.

Lemma Quiet_willUserProvideCredentialsAsync {T} (schema : CredentialSchema.t T) :
  Quiet (willUserProvideCredentialsAsync schema).
Proof.
  apply Quiet_bind; [apply Quiet_promptAsync | intros; apply Quiet_ret].
Qed.

(** ** The opt-in question *)

Lemma willUserProvideCredentialsAsync_output {T} (schema : CredentialSchema.t T) w :
  output (willUserProvideCredentialsAsync schema w).2 =
  output w ++ [Prompted select (optInMessage schema) None].
Proof.
  unfold willUserProvideCredentialsAsync, bind, promptAsync, ret.
  destruct (selectLoop _ _) as [[b| |] rest]; reflexivity.
Qed.

(** C1: when the answer to the opt-in question is [false],
    [askForUserProvidedAsync] returns [null], and it stops where the
    opt-in question stopped: that question is the only one asked, and
    nothing else is printed. *)
Theorem askForUserProvidedAsync_declined {T} (schema : CredentialSchema.t T)
    (initialValues : gmap string string) (w : World) :
  (willUserProvideCredentialsAsync schema w).1 = Ok false ->
  let w' := (willUserProvideCredentialsAsync schema w).2 in
  askForUserProvidedAsync schema initialValues w = (Ok None, w') /\
  output w' = output w ++ [Prompted select (optInMessage schema) None] /\
  asked w' = asked w ++ [Prompted select (optInMessage schema) None].
Proof.
  intros Hno w'. subst w'. split; [|split].
  - unfold askForUserProvidedAsync, bind.
    destruct (willUserProvideCredentialsAsync schema w) as [[b| |] w1];
      simpl in Hno; [|discriminate..].
    injection Hno as ->. reflexivity.
  - apply willUserProvideCredentialsAsync_output.
  - unfold asked. rewrite willUserProvideCredentialsAsync_output.
    by rewrite List.filter_app.
Qed.

(** ** The warning is printed once *)

Lemma askForUserProvidedAsync_warnings {T} (schema : CredentialSchema.t T)
    initialValues w :
  let w' := (askForUserProvidedAsync schema initialValues w).2 in
  let yes := isTrue (willUserProvideCredentialsAsync schema w).1 in
  warnings w' =
    (warnings w + if yes && negb (EXPERT_PROMPT_called w) then 1 else 0)%nat /\
  EXPERT_PROMPT_called w' = EXPERT_PROMPT_called w || yes.
Proof.
  intros w' yes.
  assert (Hdef : w' = (askForUserProvidedAsync schema initialValues w).2) by done.
  clearbody w'. subst yes.
  unfold askForUserProvidedAsync, bind, EXPERT_PROMPT, ret in Hdef.
  pose proof (Quiet_willUserProvideCredentialsAsync schema w) as [Hw Hc].
  destruct (willUserProvideCredentialsAsync schema w) as [[[|]| |] w1];
    simpl in *; subst w'; rewrite ?orb_false_r, ?Nat.add_0_r; try done.
  destruct (EXPERT_PROMPT_called w1) eqn:Hcalled; rewrite <- Hc; simpl.
  - pose proof (Quiet_getCredentialsFromUserAsync schema initialValues w1)
      as [Hw2 Hc2].
    destruct (getCredentialsFromUserAsync schema initialValues w1)
      as [[c| |] w2]; simpl in *; (split; [lia | congruence]).
  - set (w2 := emit (Warned EXPERT_PROMPT_message) (setCalled w1)).
    pose proof (Quiet_getCredentialsFromUserAsync schema initialValues w2)
      as [Hw2 Hc2].
    assert (warnings w2 = S (warnings w)) as Hw3.
    { unfold w2. rewrite warnings_emit. case_decide; [|done].
      unfold warnings in *. simpl. lia. }
    destruct (getCredentialsFromUserAsync schema initialValues w2)
      as [[c| |] w3]; simpl in *; (split; [lia | by rewrite Hc2]).
Qed.

Lemma runCalls_called calls w :
  EXPERT_PROMPT_called w = true ->
  Forall (fun r => warned r = 0%nat) (runCalls calls w).1 /\
  warnings (runCalls calls w).2 = warnings w.
Proof.
  revert w. induction calls as [|[T schema initialValues] rest IH]; intros w Hc.
  - by split.
  - simpl.
    destruct (askForUserProvidedAsync_warnings schema initialValues w) as [Hw Hc'].
    rewrite Hc in Hw. rewrite Hc in Hc'.
    rewrite andb_false_r, Nat.add_0_r in Hw.
    simpl in Hc'. destruct (IH _ Hc') as [IH1 IH2].
    destruct (runCalls rest _) as [reports final]; simpl in *.
    split; [constructor; [simpl; lia | done] | congruence].
Qed.

Lemma Forall_warned_zero reports :
  Forall (fun r => warned r = 0%nat) reports ->
  map warned reports = map (fun _ => 0%nat) (map accepted reports).
Proof. induction 1 as [|r l Hr _ IH]; simpl; [done | by rewrite Hr, IH]. Qed.

(** C2: in a process that has not printed the warning yet, over any
    sequence of calls of [askForUserProvidedAsync] the warning is printed
    during the first call on which the user accepts, during no other
    call, and so once at most. *)
Theorem warning_printed_once (calls : list Call) (w : World) :
  EXPERT_PROMPT_called w = false ->
  warnings w = 0%nat ->
  let (reports, final) := runCalls calls w in
  map warned reports = firstOnly (map accepted reports) /\
  warnings final =
    (if existsb accepted reports then 1%nat else 0%nat) /\
  (warnings final <= 1)%nat.
Proof.
  intros Hc Hw.
  enough (map warned (runCalls calls w).1 =
            firstOnly (map accepted (runCalls calls w).1) /\
          warnings (runCalls calls w).2 =
            if existsb accepted (runCalls calls w).1 then 1%nat else 0%nat) as H.
  { destruct (runCalls calls w) as [reports final]; simpl in H.
    destruct H as [H1 H2]. repeat split; [done..|].
    rewrite H2. destruct (existsb _ _); lia. }
  revert w Hc Hw. induction calls as [|[T schema initialValues] rest IH];
    intros w Hc Hw.
  - by split.
  - simpl.
    destruct (askForUserProvidedAsync_warnings schema initialValues w) as [Hw' Hc'].
    rewrite Hc, Hw in Hw'. rewrite Hc in Hc'.
    rewrite andb_true_r in Hw'. simpl in Hw', Hc'.
    destruct (isTrue (willUserProvideCredentialsAsync schema w).1) eqn:Hyes.
    + destruct (runCalls_called rest _ Hc') as [H0 Hfinal].
      destruct (runCalls rest _) as [reports final]; simpl in *.
      rewrite Hw', Hw. split; [|congruence].
      f_equal. by apply Forall_warned_zero.
    + specialize (IH _ Hc' Hw').
      destruct (runCalls rest _) as [reports final]; simpl in *.
      rewrite Hw', Hw. destruct IH as [IH1 IH2]. split; [by f_equal | done].
Qed.

(** ** The answer bag *)

Lemma resolveAnswers_length questions initialValues w answers w' :
  resolveAnswers questions initialValues w = (Ok answers, w') ->
  length answers = length questions.
Proof.
  revert w answers. induction questions as [|q rest IH]; intros w answers; simpl.
  - unfold ret. by intros [= <- _].
  - unfold bind at 1.
    destruct (askQuestionAndProcessAnswerAsync _ _ w) as [[a| |] w1]; [|discriminate..].
    unfold bind, ret. specialize (IH w1).
    destruct (resolveAnswers rest initialValues w1) as [[l| |] w2]; [|discriminate..].
    intros [= <- ->]. simpl. f_equal. by eapply IH.
Qed.

Lemma askQuestions_resolveAnswers questions initialValues results w :
  askQuestions questions initialValues results w =
  match resolveAnswers questions initialValues w with
  | (Ok answers, w') => (Ok (store results questions answers), w')
  | (Throw e, w') => (Throw e, w')
  | (Quit, w') => (Quit, w')
  end.
Proof.
  revert results w. induction questions as [|q rest IH]; intros results w; simpl.
  - reflexivity.
  - unfold bind.
    destruct (askQuestionAndProcessAnswerAsync _ _ w) as [[a| |] w1]; [|done..].
    rewrite IH. unfold ret.
    by destruct (resolveAnswers rest initialValues w1) as [[l| |] w2].
Qed.

Lemma setProperty_ordinary (object : gmap string string) key value :
  key ∉ objectPrototypeMembers -> setProperty object key value = <[key := value]> object.
Proof.
  intros Hkey. unfold setProperty. case_bool_decide as Hproto; [|done].
  destruct Hkey. rewrite Hproto. unfold objectPrototypeMembers.
  repeat first [by left | right].
Qed.

Lemma lookup_setProperty_ne (object : gmap string string) key value f :
  key <> f -> setProperty object key value !! f = object !! f.
Proof.
  intros Hne. unfold setProperty. case_bool_decide; [done|].
  by apply lookup_insert_ne.
Qed.

Lemma dom_store results questions answers :
  Forall (fun q => Question.field q ∉ objectPrototypeMembers) questions ->
  length answers = length questions ->
  dom (store results questions answers) =
  dom results ∪ list_to_set (Question.field <$> questions).
Proof.
  intros Hordinary. revert results answers.
  induction Hordinary as [|q rest Hq _ IH]; intros results [|a answers] Hlen;
    simplify_eq/=.
  - set_solver.
  - rewrite IH by done. rewrite setProperty_ordinary by done.
    rewrite dom_insert_L. set_solver.
Qed.

Lemma lookup_store_other results questions answers f :
  (forall j q', questions !! j = Some q' -> Question.field q' <> f) ->
  store results questions answers !! f = results !! f.
Proof.
  revert results answers.
  induction questions as [|q rest IH]; intros results [|a answers] Hf;
    simpl; try done.
  rewrite IH.
  - apply lookup_setProperty_ne. by apply (Hf 0%nat).
  - intros j q' Hj. by apply (Hf (S j)).
Qed.

Lemma lookup_store_last results questions answers i q a :
  Question.field q ∉ objectPrototypeMembers ->
  questions !! i = Some q ->
  answers !! i = Some a ->
  (forall j q', (i < j)%nat -> questions !! j = Some q' ->
     Question.field q' <> Question.field q) ->
  store results questions answers !! Question.field q = Some a.
Proof.
  intros Hordinary. revert results answers i.
  induction questions as [|q0 rest IH]; intros results [|a0 answers] [|i] Hq Ha Hlast;
    simplify_eq/=.
  - rewrite lookup_store_other.
    + rewrite setProperty_ordinary by done. apply lookup_insert_eq.
    + intros j q' Hj. apply (Hlast (S j)); [lia | done].
  - eapply IH; [done..|].
    intros j q' Hij Hj. apply (Hlast (S j)); [lia | done].
Qed.

Lemma getCredentialsFromUserAsync_store {T} (schema : CredentialSchema.t T)
    (initialValues : gmap string string) (w : World) :
  getCredentialsFromUserAsync schema initialValues w =
  match resolveAnswers (CredentialSchema.questions schema) initialValues w with
  | (Ok answers, w') =>
      let results := store ∅ (CredentialSchema.questions schema) answers in
      match CredentialSchema.transformResultAsync schema with
      | None => (Ok (Raw results), w')
      | Some transformResultAsync =>
          (mapOutcome Transformed (transformResultAsync results), w')
      end
  | (Throw e, w') => (Throw e, w')
  | (Quit, w') => (Quit, w')
  end.
Proof.
  unfold getCredentialsFromUserAsync, bind at 1.
  rewrite askQuestions_resolveAnswers.
  destruct (resolveAnswers _ initialValues w) as [[answers| |] w']; [|done..].
  simpl. destruct (CredentialSchema.transformResultAsync schema) as [f|]; [|done].
  unfold bind, lift, ret. by destruct (f _).
Qed.

(** C3, as the code has it: for a schema whose fields are ordinary
    property names, none of them a member name of [Object.prototype]:
    when every question gets its answer, resolved one per question in the
    order of the schema, [getCredentialsFromUserAsync] holds a bag whose
    keys are exactly the fields of the questions, each bound to the
    answer of its question (of the last one, should two questions share a
    field).  Without [transformResultAsync] it returns this bag, with it
    the result of [transformResultAsync] on the bag.  When a question
    ends in an exception or with the user leaving, so does the
    function. *)
Theorem getCredentialsFromUserAsync_bundle {T} (schema : CredentialSchema.t T)
    (initialValues : gmap string string) (w : World) :
  let questions := CredentialSchema.questions schema in
  Forall (fun q => Question.field q ∉ objectPrototypeMembers) questions ->
  match resolveAnswers questions initialValues w with
  | (Ok answers, w') =>
      exists results : gmap string string,
        dom results = list_to_set (Question.field <$> questions) /\
        (forall i q a,
           questions !! i = Some q -> answers !! i = Some a ->
           (forall j q', (i < j)%nat -> questions !! j = Some q' ->
              Question.field q' <> Question.field q) ->
           results !! Question.field q = Some a) /\
        getCredentialsFromUserAsync schema initialValues w =
          match CredentialSchema.transformResultAsync schema with
          | None => (Ok (Raw results), w')
          | Some transformResultAsync =>
              (mapOutcome Transformed (transformResultAsync results), w')
          end
  | (Throw e, w') =>
      getCredentialsFromUserAsync schema initialValues w = (Throw e, w')
  | (Quit, w') =>
      getCredentialsFromUserAsync schema initialValues w = (Quit, w')
  end.
Proof.
  intros questions Hordinary. rewrite getCredentialsFromUserAsync_store.
  fold questions.
  destruct (resolveAnswers questions initialValues w) as [[answers| |] w']
    eqn:Hanswers; [|done..].
  apply resolveAnswers_length in Hanswers.
  exists (store ∅ questions answers). split; [|split].
  - rewrite dom_store by done. set_solver.
  - intros i q a Hq. apply lookup_store_last; [|done].
    eapply Forall_lookup_1 in Hordinary; [exact Hordinary | exact Hq].
  - done.
Qed.

(** ** The stored answer *)

Lemma validateExistingFileAsync_true filePath w :
  validateExistingFileAsync filePath w = VBool true <->
  exists data, files w filePath = Some (RegularFile data).
Proof.
  unfold validateExistingFileAsync, stat.
  destruct (files w filePath) as [[data|]|]; simpl; split;
    first [ by eauto | by intros [? [=]] | done ].
Qed.


Lemma inputLoop_validated i format validate inputs w answer w' :
  inputLoop i format (Some validate) inputs w = (Ok answer, w') ->
  (files w' = files w /\ readError w' = readError w) /\
  exists shown, files shown = files w /\ validate answer shown = VBool true.
Proof.
  revert w. induction inputs as [|[line|n] rest IH]; intros w; simpl.
  - discriminate.
  - destruct (validate _ w) as [[|]|msg] eqn:Hvalid.
    + intros [= <- <-]. split; [done|]. by exists w.
    + intros (Hfiles & shown & Hshown & Hok)%IH. split; [done|]. by exists shown.
    + intros (Hfiles & shown & Hshown & Hok)%IH. split; [done|]. by exists shown.
  - apply IH.
Qed.

Lemma inputLoop_no_Throw i format validate inputs w e :
  (inputLoop i format validate inputs w).1 <> Throw e.
Proof.
  revert w. induction inputs as [|[line|n] rest IH]; intros w; simpl; [done| |done].
  by destruct (match validate with Some v => _ | None => _ end) as [[|]|msg].
Qed.

(** X6: through the prompt, a question of type [file] is answered by
    the contents of a regular file of the file system, encoded as the
    question asks; or it throws the error with which the read of such a
    file was rejected; or the user leaves. *)
Lemma askQuestionAndProcessAnswerAsync_file (definition : Question.t)
    (initialValue : option string) (w : World) :
  Question.type definition = file ->
  match (askQuestionAndProcessAnswerAsync definition initialValue w).1 with
  | Ok answer =>
      exists filePath data,
        files w filePath = Some (RegularFile data) /\
        readError w filePath = None /\
        answer = (if default false (Question.base64Encode definition)
                  then toBase64 data
                  else stringOfCodePoints (decodeUtf8 (map Byte.to_N data)))
  | Throw e =>
      exists filePath data,
        files w filePath = Some (RegularFile data) /\
        readError w filePath = Some e
  | Quit => True
  end.
Proof.
  intros Htype.
  unfold askQuestionAndProcessAnswerAsync, buildQuestionObject, bind.
  rewrite Htype. simpl.
  destruct (inputLoop _ _ _ _ _) as [[filePath|e|] w'] eqn:Hloop; [| |done].
  - apply inputLoop_validated in Hloop
      as ((Hfiles & Herror) & shown & Hshown & Hvalid).
    apply validateExistingFileAsync_true in Hvalid as [data Hdata].
    simpl in Hfiles, Herror, Hshown. rewrite Hshown in Hdata.
    unfold processAnswerAsync, readFile. rewrite Htype, Hfiles, Herror, Hdata.
    destruct (readError w filePath) as [e|] eqn:He; simpl.
    + by exists filePath, data.
    + exists filePath, data. repeat split; [done..|].
      by destruct (default false _).
  - exfalso. by eapply inputLoop_no_Throw, (f_equal fst Hloop).
Qed.

(** ** The path of a file *)

Lemma isAbsolute_untildify p w :
  isAbsolute p = true -> untildify p w = p.
Proof.
  unfold untildify. case_bool_decide; [done|].
  destruct p as [|c p]; [done|]. unfold isAbsolute; simpl.
  intros ->%bool_decide_eq_true. reflexivity.
Qed.

Lemma isAbsolute_resolve p w :
  isAbsolute (cwd w) = true -> isAbsolute (resolve p w) = true.
Proof.
  intros Hcwd. unfold resolve. rewrite Hcwd, orb_true_r. reflexivity.
Qed.

Lemma getSubstitution_plain matched before after replacement :
  includes "$" replacement = false ->
  getSubstitution matched before after replacement = replacement.
Proof.
  induction replacement as [|c r IH]; [done|].
  intros Hplain.
  assert (c <> "$"%char /\ includes "$" r = false) as [Hc Hr].
  { simpl in Hplain. apply orb_false_iff in Hplain as [Hc Hr].
    apply andb_false_iff in Hc as [Hc|Hc]; [|done].
    apply bool_decide_eq_false in Hc. split; [congruence | done]. }
  rewrite <- (IH Hr) at 2.
  destruct c as [[] [] [] [] [] [] [] []]; try reflexivity. by destruct Hc.
Qed.

(** C5, as the code has it: the formatting step first removes the white
    space around the input, as [String.prototype.trim] does.  What is
    left is returned as it is when it is an absolute path.  With a
    non-empty home directory, a leading [~] that is the whole path or is
    followed by a separator is replaced by the home directory, read as a
    replacement pattern (so as it is, when it holds no dollar sign); a
    [~] before another character stays, and so does every [~] when the
    home directory is empty.  What is then not absolute is resolved
    against the working directory.  With an absolute working directory
    the result is always absolute. *)
Theorem produceAbsolutePath_resolved (filePath : string) (w : World) :
  let p := trim filePath in
  (isAbsolute p = true -> produceAbsolutePath filePath w = p) /\
  (forall rest,
     p = String "~" rest ->
     rest = EmptyString \/ startsWith "/" rest = true \/ startsWith "\" rest = true ->
     homeDirectory w <> EmptyString ->
     produceAbsolutePath filePath w =
       let expanded :=
         getSubstitution "~" EmptyString rest (homeDirectory w) +:+ rest in
       if isAbsolute expanded then expanded else resolve expanded w) /\
  (forall rest,
     includes "$" (homeDirectory w) = false ->
     getSubstitution "~" EmptyString rest (homeDirectory w) = homeDirectory w) /\
  (forall c rest,
     p = String "~" (String c rest) -> c <> "/"%char -> c <> "\"%char ->
     produceAbsolutePath filePath w = resolve p w) /\
  (homeDirectory w = EmptyString -> isAbsolute p = false ->
     produceAbsolutePath filePath w = resolve p w) /\
  (isAbsolute p = false -> startsWith "~" p = false ->
     produceAbsolutePath filePath w = resolve p w) /\
  (isAbsolute (cwd w) = true ->
     isAbsolute (produceAbsolutePath filePath w) = true).
Proof.
  intros p. unfold produceAbsolutePath. fold p.
  split; [|split; [|split; [|split; [|split; [|split]]]]].
  - intros Hp. rewrite isAbsolute_untildify by done. by rewrite Hp.
  - intros rest -> Hrest Hhome. unfold untildify.
    rewrite bool_decide_eq_false_2 by done. simpl.
    assert (match rest with
            | EmptyString | String "/" _ | String "\" _ =>
                getSubstitution "~" EmptyString rest (homeDirectory w) +:+ rest
            | _ => String "~" rest
            end = getSubstitution "~" EmptyString rest (homeDirectory w) +:+ rest)
      as ->.
    { destruct Hrest as [-> | [H | H]]; [done| |];
        destruct rest as [|c rest]; simpl in H; try done;
        apply bool_decide_eq_true in H; by subst c. }
    by destruct (isAbsolute _).
  - intros rest. apply getSubstitution_plain.
  - intros c rest -> Hslash Hbackslash.
    assert (untildify (String "~" (String c rest)) w = String "~" (String c rest))
      as ->.
    { unfold untildify. case_bool_decide; [done|].
      destruct c as [[] [] [] [] [] [] [] []]; try reflexivity;
        [by destruct Hbackslash | by destruct Hslash]. }
    reflexivity.
  - intros Hhome Hp. unfold untildify.
    rewrite bool_decide_eq_true_2 by done. by rewrite Hp.
  - intros Hp Htilde.
    assert (untildify p w = p) as ->.
    { unfold untildify. case_bool_decide; [done|].
      destruct p as [|c p']; [done|]. simpl in Htilde.
      apply bool_decide_eq_false in Htilde.
      destruct c as [[] [] [] [] [] [] [] []]; try done. }
    by rewrite Hp.
  - intros Hcwd. destruct (isAbsolute (untildify p w)) eqn:Hu; simpl; [done|].
    by apply isAbsolute_resolve.
Qed.

(** ** The initial value of a prompt *)

Lemma inputLoop_output i format validate inputs w :
  exists later,
    output (inputLoop i format validate inputs w).2 = output w ++ later /\
    Forall (fun e => isPrompted e = false) later.
Proof.
  revert w. induction inputs as [|[line|n] rest IH]; intros w; simpl.
  - exists []. by rewrite app_nil_r.
  - destruct (match validate with Some v => _ | None => _ end) as [[|]|msg];
      first [ by exists []; rewrite app_nil_r
            | match goal with
              | |- context [emit ?e w] =>
                  destruct (IH (emit e w)) as (later & -> & Hlater);
                  exists (e :: later); simpl; rewrite <- app_assoc;
                  split; [done | by constructor]
              end ].
  - apply IH.
Qed.

Lemma processAnswerAsync_world definition input w :
  (processAnswerAsync definition input w).2 = w.
Proof.
  unfold processAnswerAsync, readFile, ret.
  destruct (Question.type definition); [|done..].
  destruct (readError w input); [done|].
  by destruct (files w input) as [[data|]|].
Qed.

(** C6: the initial value of the prompt of a question is the entry of
    [initialValues] at its field when the type of the question is
    [string], and there is none when the type is [password] or [file],
    whatever [initialValues] holds; the question is shown once with that
    initial value, and is then only asked again. *)
Theorem initial_only_for_string (definition : Question.t)
    (initialValues : gmap string string) (w : World) :
  let initialValue := initialValues !! Question.field definition in
  let seeded :=
    match Question.type definition with
    | string_ => initialValue
    | file | password_ => None
    end in
  initial (buildQuestionObject definition initialValue) = seeded /\
  exists later,
    output (askQuestionAndProcessAnswerAsync definition initialValue w).2 =
      output w ++
      Prompted (promptType (buildQuestionObject definition initialValue))
               (Question.question definition) seeded :: later /\
    Forall (fun e => isPrompted e = false) later.
Proof.
  intros initialValue seeded. subst seeded. split.
  - unfold buildQuestionObject. by destruct (Question.type definition).
  - unfold askQuestionAndProcessAnswerAsync, bind.
    assert (forall t i format validate,
      exists later,
        output (let (o, w') :=
                  promptAsync (InputQuestion t "input" (Question.question definition)
                                 i format validate) w in
                match o with
                | Ok a => processAnswerAsync definition a w'
                | Throw e => (Throw e, w')
                | Quit => (Quit, w')
                end).2 =
          output w ++ Prompted t (Question.question definition) i :: later /\
        Forall (fun e => isPrompted e = false) later) as Hprompt.
    { intros t i format validate. simpl.
      destruct (inputLoop_output i format validate (stdin w)
                  (emit (Prompted t (Question.question definition) i) w))
        as (later & Hout & Hlater).
      exists later. split; [|done].
      destruct (inputLoop _ _ _ _ _) as [[a| |] w']; simpl in *;
        rewrite ?processAnswerAsync_world, Hout, <- app_assoc; done. }
    unfold buildQuestionObject.
    destruct (Question.type definition); simpl promptType; apply Hprompt.
Qed.

(** ** The build jobs and the scheme *)

Lemma filter_first {A} (P : A -> Prop) `{!forall x, Decision (P x)}
    (l : list A) (x : A) (rest : list A) :
  filter P l = x :: rest ->
  exists before after,
    l = before ++ x :: after /\ P x /\ Forall (fun y => ~ P y) before.
Proof.
  induction l as [|y l IH]; [done|].
  rewrite filter_cons. case_decide as Hy.
  - intros [= -> _]. by exists [], l.
  - intros (before & after & -> & Hx & Hbefore)%IH.
    exists (y :: before), after. repeat split; [done|]. by constructor.
Qed.

Lemma filter_none {A} (P : A -> Prop) `{!forall x, Decision (P x)} (l : list A) :
  filter P l = [] -> Forall (fun y => ~ P y) l.
Proof.
  induction l as [|y l IH]; [done|].
  rewrite filter_cons. case_decide; [done|]. intros ?%IH. by constructor.
Qed.

Lemma asked_emit e w : isPrompted e = false -> asked (emit e w) = asked w.
Proof.
  intros He. unfold asked, emit; simpl.
  rewrite List.filter_app; simpl. rewrite He. apply app_nil_r.
Qed.

Lemma bytesOfString_inj a b : bytesOfString a = bytesOfString b -> a = b.
Proof.
  unfold bytesOfString. intros H.
  rewrite <- (string_of_list_ascii_of_string a),
          <- (string_of_list_ascii_of_string b).
  f_equal. revert H. generalize (list_ascii_of_string b).
  induction (list_ascii_of_string a) as [|x l IH]; intros [|y l'] H;
    simplify_eq/=; [done|].
  f_equal; [|by apply IH].
  rewrite <- (ascii_N_embedding x), <- (ascii_N_embedding y). congruence.
Qed.

Lemma sortKey_inj a b : sortKey a = sortKey b -> a = b.
Proof. intros [= _ H]. by apply bytesOfString_inj. Qed.

Lemma codeUnitLe_iff a b :
  codeUnitLe a b <-> a = b \/ lexico (sortKey a) (sortKey b).
Proof.
  unfold codeUnitLe, codeUnitLeb.
  destruct (trichotomyT lexico (sortKey a) (sortKey b)) as [[Hlt|Heq]|Hgt];
    simpl; split; try tauto.
  - intros _. left. by apply sortKey_inj.
  - intros [-> | Hlt].
    + by apply (irreflexivity lexico (sortKey b)).
    + apply (irreflexivity lexico (sortKey a)). by etrans.
Qed.

Global Instance codeUnitLe_total : Total codeUnitLe.
Proof.
  intros a b. rewrite !codeUnitLe_iff.
  destruct (trichotomyT lexico (sortKey a) (sortKey b)) as [[Hlt|Heq]|Hgt];
    [tauto | | tauto].
  left. left. by apply sortKey_inj.
Qed.

Global Instance codeUnitLe_trans : Transitive codeUnitLe.
Proof.
  intros a b c. rewrite !codeUnitLe_iff.
  intros [-> | Hab] [-> | Hbc]; [tauto..|]. right. by etrans.
Qed.

Global Instance codeUnitLe_antisymm : AntiSymm (=) codeUnitLe.
Proof.
  intros a b. rewrite !codeUnitLe_iff.
  intros [-> | Hab] [Heq | Hba]; [done..|].
  destruct (irreflexivity lexico (sortKey a)). by etrans.
Qed.

Lemma sortBy_sorted l : StronglySorted codeUnitLe (sortBy l).
Proof. apply (StronglySorted_merge_sort codeUnitLe). Qed.

Lemma sortBy_Permutation l : sortBy l ≡ₚ l.
Proof. apply merge_sort_Permutation. Qed.

Section BuildProperties.

Variable Job : Type.
Variable EasConfig : Type.
Variable sanitizeJob : PartialJob.t -> Outcome Job.
Variable readSecretEnvsAsync : string -> M (option (gmap string string)).
Variable gitRootDirectoryAsync : M string.
Variable relative : string -> string -> string.
Variable getSchemesFromXcodeproj : string -> M (list string).
Variable syncProjectConfigurationAsync : string -> M unit.
Variable createBuildContext :
  CommandContext.t -> Platform -> EasConfig -> string -> BuildContext.t.
Variable startBuildForPlatformAsync :
  BuildContext.t -> ProjectConfiguration.t -> M string.

(** C7: with a workflow that is neither [Generic] nor [Managed],
    [prepareJobAsync] throws its internal error; it returns no job and
    starts none of the two preparations. *)
Theorem prepareJobAsync_unknown_workflow (ctx : BuildContext.t)
    (jobData : JobData.t) (w : World) :
  BuildProfile.workflow (BuildContext.buildProfile ctx) <> Generic ->
  BuildProfile.workflow (BuildContext.buildProfile ctx) <> Managed ->
  prepareJobAsync Job sanitizeJob readSecretEnvsAsync gitRootDirectoryAsync
    relative ctx jobData w
  = (Throw "Unknown workflow. Shouldn't happen", w).
Proof.
  intros Hgeneric Hmanaged. unfold prepareJobAsync.
  by rewrite !decide_False by done.
Qed.

(** C8: when the secret environment is read, the common properties
    hold [secrets.buildCredentials] exactly when [jobData.credentials]
    is present, and its keystore is then the keystore of the
    credentials, field for field, with [dataBase64] taken from
    [keystore].  These common properties are those of the job that is
    assembled: in both workflows the job handed to [sanitizeJob] carries
    them unchanged. *)
Theorem prepareJobCommonAsync_buildCredentials (ctx : BuildContext.t)
    (jobData : JobData.t) (w w' : World)
    (secretEnvs : option (gmap string string)) :
  readSecretEnvsAsync
    (CommandContext.projectDir (BuildContext.commandCtx ctx)) w
  = (Ok secretEnvs, w') ->
  exists job,
    prepareJobCommonAsync readSecretEnvsAsync ctx jobData w = (Ok job, w') /\
    (is_Some (Secrets.buildCredentials (CommonJobProperties.secrets job)) <->
     is_Some (JobData.credentials jobData)) /\
    (forall credentials,
       JobData.credentials jobData = Some credentials ->
       let keystore := AndroidCredentials.keystore credentials in
       Secrets.buildCredentials (CommonJobProperties.secrets job) =
         Some (BuildCredentials.mk
                 {| JobKeystore.dataBase64 := Keystore.keystore keystore;
                    JobKeystore.keystorePassword := Keystore.keystorePassword keystore;
                    JobKeystore.keyAlias := Keystore.keyAlias keystore;
                    JobKeystore.keyPassword := Keystore.keyPassword keystore |})) /\
    (forall start root,
       gitRootDirectoryAsync start = (Ok root, w) ->
       (forall buildProfile,
          exists partialJob,
            prepareGenericJobAsync readSecretEnvsAsync gitRootDirectoryAsync
              relative ctx jobData buildProfile start = (Ok partialJob, w') /\
            PartialJob.common partialJob = job) /\
       (forall buildProfile,
          exists partialJob,
            prepareManagedJobAsync readSecretEnvsAsync gitRootDirectoryAsync
              relative ctx jobData buildProfile start = (Ok partialJob, w') /\
            PartialJob.common partialJob = job) /\
       (BuildProfile.workflow (BuildContext.buildProfile ctx) = Generic \/
        BuildProfile.workflow (BuildContext.buildProfile ctx) = Managed ->
        exists partialJob,
          PartialJob.common partialJob = job /\
          prepareJobAsync Job sanitizeJob readSecretEnvsAsync
            gitRootDirectoryAsync relative ctx jobData start
          = (sanitizeJob partialJob, w'))).
Proof.
  intros Hread.
  assert (exists job,
    prepareJobCommonAsync readSecretEnvsAsync ctx jobData w = (Ok job, w') /\
    (is_Some (Secrets.buildCredentials (CommonJobProperties.secrets job)) <->
     is_Some (JobData.credentials jobData)) /\
    (forall credentials,
       JobData.credentials jobData = Some credentials ->
       let keystore := AndroidCredentials.keystore credentials in
       Secrets.buildCredentials (CommonJobProperties.secrets job) =
         Some (BuildCredentials.mk
                 {| JobKeystore.dataBase64 := Keystore.keystore keystore;
                    JobKeystore.keystorePassword := Keystore.keystorePassword keystore;
                    JobKeystore.keyAlias := Keystore.keyAlias keystore;
                    JobKeystore.keyPassword := Keystore.keyPassword keystore |}))
  ) as (job & Hjob & Hiff & Hcopy).
  { unfold prepareJobCommonAsync, bind. rewrite Hread.
    eexists. split; [reflexivity|]. simpl.
    destruct (JobData.credentials jobData) as [credentials|]; split.
    - done.
    - by intros ? [= <-].
    - split; by intros [? [=]].
    - done. }
  exists job. split; [done|]. split; [done|]. split; [done|].
  intros start root Hroot.
  assert (forall buildProfile,
    prepareGenericJobAsync readSecretEnvsAsync gitRootDirectoryAsync relative
      ctx jobData buildProfile start
    = (Ok (PartialJob.mk job Generic (BuildProfile.gradleCommand buildProfile)
             (BuildProfile.artifactPath buildProfile)
             (orElse (relative root (cwd w)) ".")), w')) as Hgeneric.
  { intros buildProfile. unfold prepareGenericJobAsync, bind at 1.
    rewrite Hroot. unfold process_cwd, bind at 1. unfold bind at 1.
    by rewrite Hjob. }
  assert (forall buildProfile,
    prepareManagedJobAsync readSecretEnvsAsync gitRootDirectoryAsync relative
      ctx jobData buildProfile start
    = (Ok (PartialJob.mk job Managed None None
             (orElse (relative root (cwd w)) ".")), w')) as Hmanaged.
  { intros buildProfile. unfold prepareManagedJobAsync, bind at 1.
    rewrite Hroot. unfold process_cwd, bind at 1. unfold bind at 1.
    by rewrite Hjob. }
  split; [|split].
  - intros buildProfile. rewrite Hgeneric.
    eexists. split; [reflexivity | done].
  - intros buildProfile. rewrite Hmanaged.
    eexists. split; [reflexivity | done].
  - intros [Hworkflow | Hworkflow]; unfold prepareJobAsync;
      rewrite Hworkflow; simpl; unfold bind at 1;
      [rewrite Hgeneric | rewrite Hmanaged];
      eexists; (split; [|reflexivity]); done.
Qed.

(** C9: with one scheme in the project, [resolveSchemeAsync] returns
    it and does nothing else.  With several and without interaction, it
    returns, of the schemes in ascending order, the first whose name
    does not contain [tvOS], and the first of all when every name
    contains it; nothing is asked.  For [AppTV] and [App] this is
    [App]. *)
Theorem resolveSchemeAsync_choice (ctx : BuildContext.t)
    (schemes : list string) (w w1 : World) :
  getSchemesFromXcodeproj
    (CommandContext.projectDir (BuildContext.commandCtx ctx)) w
  = (Ok schemes, w1) ->
  (forall scheme, schemes = [scheme] ->
     resolveSchemeAsync getSchemesFromXcodeproj ctx w = (Ok (Some scheme), w1)) /\
  ((1 < length schemes)%nat ->
   CommandContext.nonInteractive (BuildContext.commandCtx ctx) = true ->
   exists sorted scheme w2,
     StronglySorted codeUnitLe sorted /\ sorted ≡ₚ schemes /\
     resolveSchemeAsync getSchemesFromXcodeproj ctx w = (Ok (Some scheme), w2) /\
     stdin w2 = stdin w1 /\ asked w2 = asked w1 /\
     ((exists before after,
         sorted = before ++ scheme :: after /\
         includes "tvOS" scheme = false /\
         Forall (fun s => includes "tvOS" s = true) before)
      \/ (Forall (fun s => includes "tvOS" s = true) sorted /\
          head sorted = Some scheme))) /\
  (schemes = ["AppTV"; "App"] ->
   CommandContext.nonInteractive (BuildContext.commandCtx ctx) = true ->
   (resolveSchemeAsync getSchemesFromXcodeproj ctx w).1 = Ok (Some "App")).
Proof.
  intros Hschemes. split; [|split].
  - intros scheme ->. unfold resolveSchemeAsync, bind. by rewrite Hschemes.
  - intros Hlen Hnon. unfold resolveSchemeAsync, bind at 1.
    rewrite Hschemes, bool_decide_eq_false_2 by lia. rewrite Hnon.
    exists (sortBy schemes).
    pose proof (sortBy_sorted schemes) as Hsorted.
    pose proof (sortBy_Permutation schemes) as Hperm.
    assert (sortBy schemes <> []) as Hne.
    { intros Hnil. rewrite Hnil in Hperm.
      apply Permutation_nil_l in Hperm. subst schemes. simpl in Hlen. lia. }
    destruct (filter _ (sortBy schemes)) as [|scheme rest] eqn:Hfilter.
    + destruct (sortBy schemes) as [|scheme sorted'] eqn:Hsort; [done|].
      eexists scheme, _. simpl.
      split; [done|]. split; [done|]. split; [reflexivity|].
      split; [done|]. split; [by rewrite !asked_emit|]. right.
      split; [|done]. apply filter_none in Hfilter.
      eapply Forall_impl; [exact Hfilter|]. simpl. intros s Hs.
      destruct (includes "tvOS" s); [done|]. by destruct Hs.
    + eexists scheme, _. simpl.
      split; [done|]. split; [done|]. split; [reflexivity|].
      split; [done|]. split; [by rewrite !asked_emit|]. left.
      apply filter_first in Hfilter as (before & after & -> & Hscheme & Hbefore).
      exists before, after. repeat split.
      * by destruct (includes "tvOS" scheme).
      * eapply Forall_impl; [exact Hbefore|]. simpl. intros s Hs.
        destruct (includes "tvOS" s); [done|]. by destruct Hs.
  - intros -> Hnon. unfold resolveSchemeAsync, bind at 1.
    rewrite Hschemes. simpl. rewrite Hnon. reflexivity.
Qed.

(** C10: with no scheme in the project and without interaction,
    [resolveSchemeAsync] does not throw and returns no member of the
    list but [undefined], read at index 0 of the empty sorted list; it
    names it in the log, and [startIosBuildAsync] hands it on to the
    build as the scheme of the native project. *)
Theorem resolveSchemeAsync_no_scheme (ctx : BuildContext.t) (w w1 : World) :
  getSchemesFromXcodeproj
    (CommandContext.projectDir (BuildContext.commandCtx ctx)) w
  = (Ok [], w1) ->
  CommandContext.nonInteractive (BuildContext.commandCtx ctx) = true ->
  exists w2,
    resolveSchemeAsync getSchemesFromXcodeproj ctx w = (Ok None, w2) /\
    stdin w2 = stdin w1 /\
    output w2 = output w1 ++
      [ NewLine;
        Logged "We've found multiple schemes in your Xcode project: ";
        Logged "You can specify the scheme you want to build at builds.ios.PROFILE_NAME.scheme in eas.json.";
        Logged "You've run Expo CLI in non-interactive mode, choosing the undefined scheme.";
        NewLine ] /\
    forall commandCtx easConfig projectId,
      createBuildContext commandCtx iOS easConfig projectId = ctx ->
      BuildProfile.workflow (BuildContext.buildProfile ctx) = Generic ->
      BuildProfile.scheme (BuildContext.buildProfile ctx) = None ->
      startIosBuildAsync EasConfig getSchemesFromXcodeproj
        syncProjectConfigurationAsync createBuildContext
        startBuildForPlatformAsync commandCtx easConfig projectId w
      = (let* _ :=
           syncProjectConfigurationAsync (CommandContext.projectDir commandCtx) in
         startBuildForPlatformAsync ctx (ProjectConfiguration.mk None)) w2.
Proof.
  intros Hschemes Hnon.
  assert (exists w2,
    resolveSchemeAsync getSchemesFromXcodeproj ctx w = (Ok None, w2) /\
    stdin w2 = stdin w1 /\
    output w2 = output w1 ++
      [ NewLine;
        Logged "We've found multiple schemes in your Xcode project: ";
        Logged "You can specify the scheme you want to build at builds.ios.PROFILE_NAME.scheme in eas.json.";
        Logged "You've run Expo CLI in non-interactive mode, choosing the undefined scheme.";
        NewLine ]) as (w2 & Hresolve & Hstdin & Houtput).
  { unfold resolveSchemeAsync, bind at 1. rewrite Hschemes. simpl.
    rewrite Hnon. eexists. split; [reflexivity|]. simpl.
    split; [done|]. by rewrite <- !app_assoc. }
  exists w2. repeat split; [done..|].
  intros commandCtx easConfig projectId Hctx Hworkflow Hscheme.
  unfold startIosBuildAsync. rewrite Hctx, Hworkflow, Hscheme. simpl.
  unfold bind at 1. by rewrite Hresolve.
Qed.

End BuildProperties.

(** * The properties on the sample project *)

Lemma askForUserProvidedAsync_declined_witness :
  (willUserProvideCredentialsAsync Sample.keystoreSchema
     (Sample.world [Pick 0%nat; Typed "x"])).1 = Ok false /\
  (askForUserProvidedAsync Sample.keystoreSchema Sample.initialValues
     (Sample.world [Pick 0%nat; Typed "x"])).1 = Ok None /\
  stdin (askForUserProvidedAsync Sample.keystoreSchema Sample.initialValues
           (Sample.world [Pick 0%nat; Typed "x"])).2 = [Typed "x"].
Proof.
  split; [reflexivity|].
  destruct (askForUserProvidedAsync_declined Sample.keystoreSchema
              Sample.initialValues (Sample.world [Pick 0%nat; Typed "x"]) eq_refl)
    as (Hreturn & _ & _).
  rewrite Hreturn. split; reflexivity.
Defined.

Lemma warning_printed_once_witness :
  map warned (runCalls Sample.calls Sample.session).1 =
    firstOnly (map accepted (runCalls Sample.calls Sample.session).1) /\
  (warnings (runCalls Sample.calls Sample.session).2 <= 1)%nat.
Proof.
  pose proof (warning_printed_once Sample.calls Sample.session eq_refl eq_refl) as H.
  destruct (runCalls Sample.calls Sample.session) as [reports final].
  destruct H as (Hfirst & _ & Honce). split; assumption.
Defined.

Example runCalls_session :
  map accepted (runCalls Sample.calls Sample.session).1 = [false; true; true] /\
  map warned (runCalls Sample.calls Sample.session).1 = [0; 1; 0]%nat /\
  warnings (runCalls Sample.calls Sample.session).2 = 1%nat.
Proof. vm_compute. done. Qed.

(** C3, as it is stated, fails: the answer of a question whose field is
    [__proto__] is not kept, and the bag that is returned has no key. *)
Lemma getCredentialsFromUserAsync_proto_field :
  (getCredentialsFromUserAsync Sample.protoSchema ∅
     (Sample.world [Typed "secret"])).1 = Ok (Raw ∅) /\
  dom (∅ : gmap string string) <>
    list_to_set (Question.field <$> CredentialSchema.questions Sample.protoSchema).
Proof.
  split; [reflexivity|]. simpl. intros Hdom.
  assert ("__proto__" ∈ dom (∅ : gmap string string)) as Hin
    by (rewrite Hdom; set_solver).
  set_solver.
Qed.

Lemma getCredentialsFromUserAsync_bundle_witness :
  exists results : gmap string string,
    dom results =
      list_to_set
        (Question.field <$> CredentialSchema.questions Sample.keystoreSchema) /\
    (getCredentialsFromUserAsync Sample.keystoreSchema Sample.initialValues
       (Sample.world (tail Sample.answers))).1 = Ok (Raw results).
Proof.
  assert (Forall (fun q => Question.field q ∉ objectPrototypeMembers)
            (CredentialSchema.questions Sample.keystoreSchema)) as Hordinary.
  { apply (bool_decide_unpack _). vm_compute. exact I. }
  pose proof (getCredentialsFromUserAsync_bundle Sample.keystoreSchema
                Sample.initialValues (Sample.world (tail Sample.answers))
                Hordinary) as H.
  destruct (resolveAnswers _ _ _) as [[answers| |] w'] eqn:Hanswers.
  - destruct H as (results & Hdom & _ & Hrun). exists results.
    split; [done|]. by rewrite Hrun.
  - apply (f_equal fst) in Hanswers. vm_compute in Hanswers. discriminate.
  - apply (f_equal fst) in Hanswers. vm_compute in Hanswers. discriminate.
Defined.

Example getCredentialsFromUserAsync_sample :
  (getCredentialsFromUserAsync Sample.keystoreSchema Sample.initialValues
     (Sample.world (tail Sample.answers))).1 =
  Ok (Raw {[ "keystore" := "TWFu"; "keystorePassword" := "p1";
             "keyAlias" := "upload"; "keyPassword" := "p2" ]}).
Proof. vm_compute. reflexivity. Qed.


(** A keystore that cannot be read: the path passes the validation and
    the rejection of the read is thrown. *)
Example processAnswerAsync_rejected :
  let w := mkWorld [] Sample.files
             (fun path => if bool_decide (path = "/home/dev/release.keystore")
                          then Some "EACCES: permission denied, open"
                          else None)
             "/home/dev" "/home/dev/app" [] false in
  validateExistingFileAsync "/home/dev/release.keystore" w = VBool true /\
  (processAnswerAsync Sample.keystoreQuestion "/home/dev/release.keystore" w).1
  = Throw "EACCES: permission denied, open".
Proof. by split. Qed.

(** A text file with a byte that is no UTF-8: it is read as U+FFFD. *)
Example processAnswerAsync_ill_formed :
  let w := mkWorld [] (fun _ => Some (RegularFile ["a"; xff; "b"]%byte))
             (fun _ => None) "/home/dev" "/home/dev/app" [] false in
  (processAnswerAsync (Question.mk "notes" "Notes" file None) "/notes.txt" w).1
  = Ok (stringOfCodePoints [97; 65533; 98]).
Proof. reflexivity. Qed.

Example processAnswerAsync_text :
  (processAnswerAsync (Question.mk "notes" "Notes" file None)
     "/home/dev/notes.txt" (Sample.world [])).1 = Ok "hi".
Proof. reflexivity. Qed.

(** C5, as it is stated, fails: an absolute path typed with a space after
    it is not returned unchanged. *)
Lemma produceAbsolutePath_absolute_input_changed :
  isAbsolute "/abs/foo.txt " = true /\
  produceAbsolutePath "/abs/foo.txt " (Sample.world []) = "/abs/foo.txt" /\
  produceAbsolutePath "/abs/foo.txt " (Sample.world []) <> "/abs/foo.txt ".
Proof. repeat split. discriminate. Qed.

Lemma produceAbsolutePath_resolved_witness :
  produceAbsolutePath "/abs/foo.txt" (Sample.world []) = "/abs/foo.txt" /\
  produceAbsolutePath " ~/foo.txt" (Sample.world []) = "/home/dev/foo.txt" /\
  produceAbsolutePath "~dev/foo.txt" (Sample.world []) =
    resolve "~dev/foo.txt" (Sample.world []) /\
  produceAbsolutePath "relative/foo.txt" (Sample.world []) =
    resolve "relative/foo.txt" (Sample.world []) /\
  isAbsolute (produceAbsolutePath "relative/foo.txt" (Sample.world [])) = true.
Proof.
  split; [|split; [|split; [|split]]].
  - apply (proj1 (produceAbsolutePath_resolved "/abs/foo.txt" (Sample.world []))).
    reflexivity.
  - apply (proj1 (proj2 (produceAbsolutePath_resolved " ~/foo.txt"
                           (Sample.world []))) "/foo.txt");
      [reflexivity | right; left; reflexivity | discriminate].
  - apply (proj1 (proj2 (proj2 (proj2
             (produceAbsolutePath_resolved "~dev/foo.txt" (Sample.world [])))))
             "d"%char "ev/foo.txt"); [reflexivity | discriminate..].
  - apply (proj1 (proj2 (proj2 (proj2 (proj2 (proj2
             (produceAbsolutePath_resolved "relative/foo.txt"
                (Sample.world []))))))));
      reflexivity.
  - apply (proj2 (proj2 (proj2 (proj2 (proj2 (proj2
             (produceAbsolutePath_resolved "relative/foo.txt"
                (Sample.world [])))))))).
    reflexivity.
Defined.

(** White space that is not ASCII is removed as well: a no-break space
    before an absolute path and a line separator after it. *)
Example produceAbsolutePath_unicode_white_space :
  produceAbsolutePath
    (stringOfCodePoints [160] +:+ "/abs/foo.txt" +:+ stringOfCodePoints [8232])
    (Sample.world []) = "/abs/foo.txt".
Proof. reflexivity. Qed.

(** A home directory is a replacement pattern: [$&] in it stands for the
    [~] that it replaces. *)
Example produceAbsolutePath_dollar_home :
  produceAbsolutePath "~/foo.txt"
    (mkWorld [] Sample.files (fun _ => None) "/home/$&dev$$" "/" [] false)
  = "/home/~dev$/foo.txt".
Proof. reflexivity. Qed.

Example produceAbsolutePath_samples :
  produceAbsolutePath "~/foo.txt" (Sample.world []) = "/home/dev/foo.txt" /\
  produceAbsolutePath "relative/foo.txt" (Sample.world []) =
    "/home/dev/app/relative/foo.txt" /\
  produceAbsolutePath "../x/./y//z/" (Sample.world []) = "/home/dev/x/y/z" /\
  produceAbsolutePath "~dev/foo.txt" (Sample.world []) =
    "/home/dev/app/~dev/foo.txt".
Proof. vm_compute. done. Qed.

Example initial_only_for_string_sample :
  map (fun e => match e with Prompted _ _ i => i | _ => None end)
    (asked (getCredentialsFromUserAsync Sample.keystoreSchema
              Sample.initialValues (Sample.world (tail Sample.answers))).2)
  = [None; None; Some "upload"; None].
Proof. vm_compute. reflexivity. Qed.

Lemma prepareJobAsync_unknown_workflow_witness :
  (prepareJobAsync PartialJob.t Sample.sanitizeJob Sample.readSecretEnvsAsync
     Sample.gitRootDirectoryAsync Sample.relative
     (Sample.context (OtherWorkflow "custom") true) Sample.jobData
     (Sample.world [])).1
  = Throw "Unknown workflow. Shouldn't happen".
Proof.
  rewrite prepareJobAsync_unknown_workflow; [reflexivity | discriminate..].
Defined.

Lemma prepareJobCommonAsync_buildCredentials_witness :
  exists job,
    (prepareJobCommonAsync Sample.readSecretEnvsAsync
       (Sample.context Generic true) Sample.jobData (Sample.world [])).1 = Ok job /\
    Secrets.buildCredentials (CommonJobProperties.secrets job) =
      Some (BuildCredentials.mk (JobKeystore.mk "BASE64" "p1" "a" "p2")) /\
    exists partialJob,
      (prepareJobAsync PartialJob.t Sample.sanitizeJob
         Sample.readSecretEnvsAsync Sample.gitRootDirectoryAsync
         Sample.relative (Sample.context Generic true) Sample.jobData
         (Sample.world [])).1 = Ok partialJob /\
      PartialJob.common partialJob = job.
Proof.
  destruct (prepareJobCommonAsync_buildCredentials PartialJob.t
              Sample.sanitizeJob Sample.readSecretEnvsAsync
              Sample.gitRootDirectoryAsync Sample.relative
              (Sample.context Generic true) Sample.jobData
              (Sample.world []) (Sample.world []) None eq_refl)
    as (job & Hjob & _ & Hcopy & Hassembled).
  exists job. split; [by rewrite Hjob|]. split; [exact (Hcopy _ eq_refl)|].
  destruct (Hassembled (Sample.world []) "/home/dev/app" eq_refl)
    as (_ & _ & Hrun).
  destruct (Hrun (or_introl eq_refl)) as (partialJob & Hcommon & Hjob').
  exists partialJob. split; [|done]. by rewrite Hjob'.
Defined.

Example prepareJobAsync_generic :
  (prepareJobAsync PartialJob.t Sample.sanitizeJob Sample.readSecretEnvsAsync
     Sample.gitRootDirectoryAsync Sample.relative
     (Sample.context Generic true)
     (JobData.mk "https://x/archive.tar.gz" None) (Sample.world [])).1
  = Ok (PartialJob.mk
          (CommonJobProperties.mk Android "https://x/archive.tar.gz"
             (Secrets.mk None None))
          Generic (Some "assembleRelease") None ".").
Proof. reflexivity. Qed.

Lemma resolveSchemeAsync_choice_witness :
  (resolveSchemeAsync (Sample.getSchemesFromXcodeproj ["AppTV"; "App"])
     (Sample.context Generic true) (Sample.world [])).1 = Ok (Some "App").
Proof.
  destruct (resolveSchemeAsync_choice
              (Sample.getSchemesFromXcodeproj ["AppTV"; "App"])
              (Sample.context Generic true) ["AppTV"; "App"]
              (Sample.world []) (Sample.world []) eq_refl) as (_ & _ & Happ).
  exact (Happ eq_refl eq_refl).
Defined.

(** Names are ordered by their UTF-16 code units: U+1F600, a surrogate
    pair, comes before U+FF5E. *)
Example resolveSchemeAsync_code_units :
  (resolveSchemeAsync
     (Sample.getSchemesFromXcodeproj
        [stringOfCodePoints [65374]; stringOfCodePoints [128512]])
     (Sample.context Generic true) (Sample.world [])).1
  = Ok (Some (stringOfCodePoints [128512])).
Proof. vm_compute. reflexivity. Qed.

Example resolveSchemeAsync_samples :
  (resolveSchemeAsync (Sample.getSchemesFromXcodeproj ["App-tvOS"; "App"; "Aaa-tvOS"])
     (Sample.context Generic true) (Sample.world [])).1 = Ok (Some "App") /\
  (resolveSchemeAsync (Sample.getSchemesFromXcodeproj ["B-tvOS"; "A-tvOS"])
     (Sample.context Generic true) (Sample.world [])).1 = Ok (Some "A-tvOS") /\
  (resolveSchemeAsync (Sample.getSchemesFromXcodeproj ["Only-tvOS"])
     (Sample.context Generic true) (Sample.world [])).1 = Ok (Some "Only-tvOS") /\
  (resolveSchemeAsync (Sample.getSchemesFromXcodeproj ["B"; "A"])
     (Sample.context Generic false) (Sample.world [Pick 1%nat])).1 = Ok (Some "B").
Proof. vm_compute. done. Qed.

Lemma resolveSchemeAsync_no_scheme_witness :
  (resolveSchemeAsync (Sample.getSchemesFromXcodeproj [])
     (Sample.createBuildContext (CommandContext.mk "/home/dev/app" true) iOS tt "id")
     (Sample.world [])).1 = Ok None /\
  (startIosBuildAsync unit (Sample.getSchemesFromXcodeproj [])
     Sample.syncProjectConfigurationAsync Sample.createBuildContext
     Sample.startBuildForPlatformAsync
     (CommandContext.mk "/home/dev/app" true) tt "id" (Sample.world [])).1
  = Ok "build of undefined".
Proof.
  destruct (resolveSchemeAsync_no_scheme unit (Sample.getSchemesFromXcodeproj [])
              Sample.syncProjectConfigurationAsync Sample.createBuildContext
              Sample.startBuildForPlatformAsync
              (Sample.createBuildContext (CommandContext.mk "/home/dev/app" true)
                 iOS tt "id")
              (Sample.world []) (Sample.world []) eq_refl eq_refl)
    as (w2 & Hresolve & _ & _ & Hbuild).
  split; [by rewrite Hresolve|].
  rewrite (Hbuild _ tt "id" eq_refl eq_refl eq_refl). reflexivity.
Defined.


(** * Further properties of the three modules *)

(** ** The credential questions *)

Lemma bind_run {A B} (m : M A) (k : A -> M B) w :
  bind m k w =
  match m w with
  | (Ok a, w') => k a w'
  | (Throw e, w') => (Throw e, w')
  | (Quit, w') => (Quit, w')
  end.
Proof. reflexivity. Qed.

Lemma inputLoop_reprompts i format validate inputs w :
  exists later,
    output (inputLoop i format validate inputs w).2 = output w ++ later /\
    Forall (fun e => isReprompted e = true) later.
Proof.
  revert w. induction inputs as [|[line|n] rest IH]; intros w; simpl.
  - exists []. by rewrite app_nil_r.
  - destruct (match validate with Some v => _ | None => _ end) as [[|]|msg];
      first [ by exists []; rewrite app_nil_r
            | match goal with
              | |- context [emit ?e w] =>
                  destruct (IH (emit e w)) as (later & -> & Hlater);
                  exists (e :: later); simpl; rewrite <- app_assoc;
                  split; [done | by constructor]
              end ].
  - apply IH.
Qed.

Lemma askQuestionAndProcessAnswerAsync_output definition initialValue w :
  exists later,
    output (askQuestionAndProcessAnswerAsync definition initialValue w).2 =
      output w ++ promptEvent definition initialValue :: later /\
    Forall (fun e => isReprompted e = true) later.
Proof.
  unfold askQuestionAndProcessAnswerAsync. rewrite bind_run.
  assert (forall t i format validate,
    exists later,
      output (let (o, w') :=
                promptAsync (InputQuestion t "input" (Question.question definition)
                               i format validate) w in
              match o with
              | Ok a => processAnswerAsync definition a w'
              | Throw e => (Throw e, w')
              | Quit => (Quit, w')
              end).2 =
        output w ++ Prompted t (Question.question definition) i :: later /\
      Forall (fun e => isReprompted e = true) later) as Hprompt.
  { intros t i format validate. simpl.
    destruct (inputLoop_reprompts i format validate (stdin w)
                (emit (Prompted t (Question.question definition) i) w))
      as (later & Hout & Hlater).
    exists later. split; [|done].
    destruct (inputLoop _ _ _ _ _) as [[a| |] w']; simpl in *;
      rewrite ?processAnswerAsync_world, Hout, <- app_assoc; done. }
  unfold buildQuestionObject, promptEvent.
  destruct (Question.type definition); apply Hprompt.
Qed.

Lemma filter_isPrompted_reprompts later :
  Forall (fun e => isReprompted e = true) later ->
  List.filter isPrompted later = [].
Proof.
  induction 1 as [|e l He _ IH]; [done|]. simpl. rewrite IH. by destruct e.
Qed.

Lemma askQuestionAndProcessAnswerAsync_asked definition initialValue w :
  asked (askQuestionAndProcessAnswerAsync definition initialValue w).2 =
  asked w ++ [promptEvent definition initialValue].
Proof.
  destruct (askQuestionAndProcessAnswerAsync_output definition initialValue w)
    as (later & Hout & Hlater).
  unfold asked. rewrite Hout, List.filter_app. simpl.
  by rewrite (filter_isPrompted_reprompts later).
Qed.

Lemma askQuestions_cons q rest initialValues results w :
  askQuestions (q :: rest) initialValues results w =
  match askQuestionAndProcessAnswerAsync q
          (initialValues !! Question.field q) w with
  | (Ok a, w1) =>
      askQuestions rest initialValues
        (setProperty results (Question.field q) a) w1
  | (Throw e, w1) => (Throw e, w1)
  | (Quit, w1) => (Quit, w1)
  end.
Proof. reflexivity. Qed.

Lemma resolveAnswers_cons q rest initialValues w :
  resolveAnswers (q :: rest) initialValues w =
  match askQuestionAndProcessAnswerAsync q
          (initialValues !! Question.field q) w with
  | (Ok a, w1) =>
      match resolveAnswers rest initialValues w1 with
      | (Ok answers, w2) => (Ok (a :: answers), w2)
      | (Throw e, w2) => (Throw e, w2)
      | (Quit, w2) => (Quit, w2)
      end
  | (Throw e, w1) => (Throw e, w1)
  | (Quit, w1) => (Quit, w1)
  end.
Proof.
  simpl. rewrite bind_run.
  destruct (askQuestionAndProcessAnswerAsync q _ w) as [[a| |] w1]; [|done..].
  by rewrite bind_run.
Qed.

Lemma askQuestions_shown questions initialValues results w :
  (exists answers,
     resolveAnswers questions initialValues w =
       (Ok answers, (askQuestions questions initialValues results w).2) /\
     (askQuestions questions initialValues results w).1 =
       Ok (store results questions answers) /\
     asked (askQuestions questions initialValues results w).2 =
       asked w ++
       map (fun q => promptEvent q (initialValues !! Question.field q))
           questions) \/
  (exists before q after answers w1,
     questions = before ++ q :: after /\
     resolveAnswers before initialValues w = (Ok answers, w1) /\
     sameFailure
       (askQuestionAndProcessAnswerAsync q
          (initialValues !! Question.field q) w1).1
       (askQuestions questions initialValues results w).1 /\
     (askQuestions questions initialValues results w).2 =
       (askQuestionAndProcessAnswerAsync q
          (initialValues !! Question.field q) w1).2 /\
     asked (askQuestions questions initialValues results w).2 =
       asked w ++
       map (fun q => promptEvent q (initialValues !! Question.field q))
           (before ++ [q])).
Proof.
  revert results w. induction questions as [|q rest IH]; intros results w.
  - left. exists []. simpl. by rewrite app_nil_r.
  - rewrite askQuestions_cons.
    pose proof (askQuestionAndProcessAnswerAsync_asked q
                  (initialValues !! Question.field q) w) as Hq.
    destruct (askQuestionAndProcessAnswerAsync q
                (initialValues !! Question.field q) w) as [[a| |] w1] eqn:Hask;
      simpl in Hq.
    + destruct (IH (setProperty results (Question.field q) a) w1)
        as [(answers & Hanswers & Hrun & Hasked)
           |(before & q' & after & answers & w2 & -> & Hbefore & Hfail & Hworld
             & Hasked)].
      * left. exists (a :: answers). rewrite resolveAnswers_cons, Hask, Hanswers.
        split; [done|]. split; [done|].
        by rewrite Hasked, Hq, <- app_assoc.
      * right. exists (q :: before), q', after, (a :: answers), w2.
        rewrite resolveAnswers_cons, Hask, Hbefore.
        split; [done|]. split; [done|]. split; [done|]. split; [done|].
        by rewrite Hasked, Hq, <- app_assoc.
    + right. exists [], q, rest, [], w. rewrite Hask. simpl.
      split; [done|]. split; [done|]. split; [done|]. by split.
    + right. exists [], q, rest, [], w. rewrite Hask. simpl.
      split; [done|]. split; [done|]. split; [done|]. by split.
Qed.

(** X2: for a schema whose fields are ordinary property names, none of
    them a member name of [Object.prototype],
    [getCredentialsFromUserAsync] shows the questions of the schema in
    their order, as text or masked, each once.  Either every question is
    answered and all of them were shown; or a question fails, the run
    ends with the failure of that question in the world that it left,
    and the questions shown are those up to it and no other. *)
Theorem getCredentialsFromUserAsync_asked {T} (schema : CredentialSchema.t T)
    (initialValues : gmap string string) (w : World) :
  let questions := CredentialSchema.questions schema in
  let run := getCredentialsFromUserAsync schema initialValues w in
  Forall (fun q => Question.field q ∉ objectPrototypeMembers) questions ->
  (exists answers,
     resolveAnswers questions initialValues w = (Ok answers, run.2) /\
     asked run.2 =
       asked w ++
       map (fun q => promptEvent q (initialValues !! Question.field q))
           questions) \/
  (exists before q after answers w1,
     questions = before ++ q :: after /\
     resolveAnswers before initialValues w = (Ok answers, w1) /\
     sameFailure
       (askQuestionAndProcessAnswerAsync q
          (initialValues !! Question.field q) w1).1 run.1 /\
     run.2 =
       (askQuestionAndProcessAnswerAsync q
          (initialValues !! Question.field q) w1).2 /\
     asked run.2 =
       asked w ++
       map (fun q => promptEvent q (initialValues !! Question.field q))
           (before ++ [q])).
Proof.
  intros questions run _. subst run. unfold getCredentialsFromUserAsync.
  rewrite bind_run. fold questions.
  destruct (askQuestions_shown questions initialValues ∅ w)
    as [(answers & Hanswers & Hrun & Hasked)
       |(before & q & after & answers & w1 & Hsplit & Hbefore & Hfail & Hworld
         & Hasked)].
  - left. exists answers.
    destruct (askQuestions questions initialValues ∅ w) as [[bag| |] w2];
      simpl in *; try discriminate.
    destruct (CredentialSchema.transformResultAsync schema) as [f|]; [|done].
    rewrite bind_run. unfold lift, ret. by destruct (f bag).
  - right. exists before, q, after, answers, w1.
    destruct (askQuestions questions initialValues ∅ w) as [[bag| |] w2];
      simpl in *; [|done..].
    by destruct (askQuestionAndProcessAnswerAsync q _ w1).1.
Qed.

Lemma getCredentialsFromUserAsync_asked_witness :
  asked
    (getCredentialsFromUserAsync Sample.keystoreSchema Sample.initialValues
       (Sample.world (tail Sample.answers))).2 =
  map (fun q => promptEvent q (Sample.initialValues !! Question.field q))
      (CredentialSchema.questions Sample.keystoreSchema).
Proof.
  assert (Forall (fun q => Question.field q ∉ objectPrototypeMembers)
            (CredentialSchema.questions Sample.keystoreSchema)) as Hordinary.
  { apply (bool_decide_unpack _). vm_compute. exact I. }
  destruct (getCredentialsFromUserAsync_asked Sample.keystoreSchema
              Sample.initialValues (Sample.world (tail Sample.answers))
              Hordinary)
    as [(answers & _ & Hasked)
       |(before & q & after & answers & w1 & _ & _ & Hfail & _)].
  - exact Hasked.
  - exfalso.
    assert (exists bundle,
              (getCredentialsFromUserAsync Sample.keystoreSchema
                 Sample.initialValues
                 (Sample.world (tail Sample.answers))).1 = Ok bundle)
      as [bundle Hrun] by (eexists; vm_compute; reflexivity).
    rewrite Hrun in Hfail.
    by destruct (askQuestionAndProcessAnswerAsync q _ w1).1.
Defined.

(** A keystore that cannot be read: the run ends with the rejection of
    the read, and the three questions after the keystore are not shown. *)
Example getCredentialsFromUserAsync_stops :
  let w := mkWorld (tail Sample.answers) Sample.files
             (fun path => if bool_decide (path = "/home/dev/release.keystore")
                          then Some "EACCES: permission denied, open"
                          else None)
             "/home/dev" "/home/dev/app" [] false in
  let run := getCredentialsFromUserAsync Sample.keystoreSchema
               Sample.initialValues w in
  run.1 = Throw "EACCES: permission denied, open" /\
  asked run.2 = [promptEvent Sample.keystoreQuestion None] /\
  length (CredentialSchema.questions Sample.keystoreSchema) = 4%nat.
Proof. vm_compute. by repeat split. Qed.

Lemma askQuestions_output questions initialValues results w :
  exists later,
    output (askQuestions questions initialValues results w).2 =
      output w ++ later /\
    Forall (fun e => isQuestion e = true) later.
Proof.
  revert results w. induction questions as [|q rest IH]; intros results w.
  - exists []. simpl. by rewrite app_nil_r.
  - simpl. rewrite bind_run.
    destruct (askQuestionAndProcessAnswerAsync_output q
                (initialValues !! Question.field q) w) as (l1 & Hout & Hl1).
    assert (Forall (fun e => isQuestion e = true)
              (promptEvent q (initialValues !! Question.field q) :: l1)) as Hq.
    { constructor; [done|]. eapply Forall_impl; [exact Hl1|].
      intros e He. unfold isQuestion. by rewrite He, orb_true_r. }
    destruct (askQuestionAndProcessAnswerAsync q _ w) as [[a| |] w1];
      simpl in Hout; [|by eauto..].
    destruct (IH (setProperty results (Question.field q) a) w1)
      as (l2 & Hout2 & Hl2).
    exists ((promptEvent q (initialValues !! Question.field q) :: l1) ++ l2).
    split; [by rewrite Hout2, Hout, <- app_assoc | by apply Forall_app].
Qed.

Lemma getCredentialsFromUserAsync_output {T} (schema : CredentialSchema.t T)
    initialValues w :
  exists later,
    output (getCredentialsFromUserAsync schema initialValues w).2 =
      output w ++ later /\
    Forall (fun e => isQuestion e = true) later.
Proof.
  unfold getCredentialsFromUserAsync. rewrite bind_run.
  destruct (askQuestions_output (CredentialSchema.questions schema)
              initialValues ∅ w) as (later & Hout & Hlater).
  exists later. split; [|done].
  destruct (askQuestions _ _ _ _) as [[bag| |] w1]; simpl in *; [|done..].
  destruct (CredentialSchema.transformResultAsync schema) as [f|]; [|done].
  rewrite bind_run. unfold lift, ret. by destruct (f bag).
Qed.

(** X3: on the first call on which the user accepts, the terminal shows
    the opt-in question, then the warning, then the questions of the
    schema and nothing else: the warning comes before the first credential
    question. *)
Theorem askForUserProvidedAsync_accepted {T} (schema : CredentialSchema.t T)
    (initialValues : gmap string string) (w : World) :
  (willUserProvideCredentialsAsync schema w).1 = Ok true ->
  EXPERT_PROMPT_called w = false ->
  exists later,
    output (askForUserProvidedAsync schema initialValues w).2 =
      output w ++
      Prompted select (optInMessage schema) None ::
      Warned EXPERT_PROMPT_message :: later /\
    Forall (fun e => isQuestion e = true) later.
Proof.
  intros Hyes Hcalled. unfold askForUserProvidedAsync. rewrite bind_run.
  pose proof (willUserProvideCredentialsAsync_output schema w) as Hout.
  pose proof (Quiet_willUserProvideCredentialsAsync schema w) as [_ Hc].
  destruct (willUserProvideCredentialsAsync schema w) as [[b| |] w1];
    simpl in *; [|discriminate..].
  injection Hyes as ->. rewrite bind_run. unfold EXPERT_PROMPT.
  rewrite Hc, Hcalled. simpl. rewrite bind_run.
  set (w2 := emit (Warned EXPERT_PROMPT_message) (setCalled w1)).
  destruct (getCredentialsFromUserAsync_output schema initialValues w2)
    as (later & Hout2 & Hlater).
  exists later. split; [|done].
  assert (output w2 = output w ++
            [Prompted select (optInMessage schema) None;
             Warned EXPERT_PROMPT_message]) as Hw2.
  { unfold w2. simpl. by rewrite Hout, <- app_assoc. }
  destruct (getCredentialsFromUserAsync schema initialValues w2)
    as [[c| |] w3]; simpl in *; by rewrite Hout2, Hw2, <- app_assoc.
Qed.

Lemma askForUserProvidedAsync_accepted_witness :
  (willUserProvideCredentialsAsync Sample.keystoreSchema
     (Sample.world Sample.answers)).1 = Ok true /\
  exists later,
    output (askForUserProvidedAsync Sample.keystoreSchema Sample.initialValues
              (Sample.world Sample.answers)).2 =
      Prompted select "Will you provide your own Android Keystore?" None ::
      Warned EXPERT_PROMPT_message :: later /\
    Forall (fun e => isQuestion e = true) later.
Proof.
  split; [reflexivity|].
  exact (askForUserProvidedAsync_accepted Sample.keystoreSchema
           Sample.initialValues (Sample.world Sample.answers) eq_refl eq_refl).
Defined.

Lemma askQuestions_initialValues questions initialValues1 initialValues2
    results w :
  (forall q, q ∈ questions -> Question.type q = string_ ->
     initialValues1 !! Question.field q = initialValues2 !! Question.field q) ->
  askQuestions questions initialValues1 results w =
  askQuestions questions initialValues2 results w.
Proof.
  revert results w. induction questions as [|q rest IH]; intros results w Hsame;
    [done|].
  simpl. rewrite !bind_run.
  assert (askQuestionAndProcessAnswerAsync q
            (initialValues1 !! Question.field q) w =
          askQuestionAndProcessAnswerAsync q
            (initialValues2 !! Question.field q) w) as ->.
  { destruct (Question.type q) eqn:Htype.
    - unfold askQuestionAndProcessAnswerAsync, buildQuestionObject.
      by rewrite Htype.
    - rewrite (Hsame q); [done | by left | done].
    - unfold askQuestionAndProcessAnswerAsync, buildQuestionObject.
      by rewrite Htype. }
  destruct (askQuestionAndProcessAnswerAsync q _ w) as [[a| |] w1]; [|done..].
  apply IH. intros q' Hq'. apply Hsame. by right.
Qed.

(** X4: [initialValues] is read at the fields of the questions of type
    [string] only: two mappings that agree there give the same run of
    [getCredentialsFromUserAsync] and of [askForUserProvidedAsync], the
    same result and the same terminal. *)
Theorem initialValues_read_at_string_fields {T} (schema : CredentialSchema.t T)
    (initialValues1 initialValues2 : gmap string string) (w : World) :
  (forall q, q ∈ CredentialSchema.questions schema ->
     Question.type q = string_ ->
     initialValues1 !! Question.field q = initialValues2 !! Question.field q) ->
  getCredentialsFromUserAsync schema initialValues1 w =
    getCredentialsFromUserAsync schema initialValues2 w /\
  askForUserProvidedAsync schema initialValues1 w =
    askForUserProvidedAsync schema initialValues2 w.
Proof.
  intros Hsame.
  assert (forall w', getCredentialsFromUserAsync schema initialValues1 w' =
                     getCredentialsFromUserAsync schema initialValues2 w') as Hget.
  { intros w'. unfold getCredentialsFromUserAsync. rewrite !bind_run.
    by rewrite (askQuestions_initialValues _ initialValues1 initialValues2). }
  split; [apply Hget|].
  unfold askForUserProvidedAsync. rewrite !bind_run.
  destruct (willUserProvideCredentialsAsync schema w) as [[[|]| |] w1]; [|done..].
  rewrite !bind_run. destruct (EXPERT_PROMPT w1) as [[[]| |] w2]; [|done..].
  rewrite !bind_run. by rewrite Hget.
Qed.

Lemma initialValues_read_at_string_fields_witness :
  getCredentialsFromUserAsync Sample.keystoreSchema Sample.initialValues
    (Sample.world (tail Sample.answers)) =
  getCredentialsFromUserAsync Sample.keystoreSchema {[ "keyAlias" := "upload" ]}
    (Sample.world (tail Sample.answers)).
Proof.
  apply (initialValues_read_at_string_fields Sample.keystoreSchema
           Sample.initialValues {[ "keyAlias" := "upload" ]}).
  intros q Hq Htype. unfold Sample.keystoreSchema in Hq. simpl in Hq.
  repeat (apply elem_of_cons in Hq as [-> | Hq]; [try discriminate Htype|]).
  - reflexivity.
  - by apply elem_of_nil in Hq.
Defined.

(** X5: a question of type [string] or [password] is never answered by
    the empty string, and it never throws: it yields a non-empty answer,
    or the user leaves. *)
Theorem askQuestionAndProcessAnswerAsync_nonempty (definition : Question.t)
    (initialValue : option string) (w : World) :
  Question.type definition <> file ->
  match (askQuestionAndProcessAnswerAsync definition initialValue w).1 with
  | Ok answer => answer <> EmptyString
  | Throw _ => False
  | Quit => True
  end.
Proof.
  intros Htype.
  assert (forall t i,
    match (let (o, w') :=
             promptAsync (InputQuestion t "input" (Question.question definition) i
                            None (Some (fun val _ => VBool (validateNonEmptyInput val))))
               w in
           match o with
           | Ok a => ret a w'
           | Throw e => (Throw e, w')
           | Quit => (Quit, w')
           end).1 with
    | Ok answer => answer <> EmptyString
    | Throw _ => False
    | Quit => True
    end) as Hprompt.
  { intros t i. simpl.
    destruct (inputLoop _ _ _ _ _) as [[answer|e|] w'] eqn:Hloop; simpl; [| |done].
    - apply inputLoop_validated in Hloop as (_ & shown & _ & Hvalid).
      intros ->. discriminate Hvalid.
    - by eapply inputLoop_no_Throw, (f_equal fst Hloop). }
  unfold askQuestionAndProcessAnswerAsync, buildQuestionObject, processAnswerAsync.
  rewrite bind_run. destruct (Question.type definition); [done|apply Hprompt..].
Qed.

Lemma askQuestionAndProcessAnswerAsync_nonempty_witness :
  (askQuestionAndProcessAnswerAsync
     (Question.mk "keyPassword" "Key password" password_ None) (Some "old")
     (Sample.world [Typed ""; Typed "p2"])).1 = Ok "p2" /\
  "p2" <> EmptyString.
Proof.
  split; [reflexivity|].
  exact (askQuestionAndProcessAnswerAsync_nonempty
           (Question.mk "keyPassword" "Key password" password_ None) (Some "old")
           (Sample.world [Typed ""; Typed "p2"]) ltac:(discriminate)).
Defined.

Lemma askQuestionAndProcessAnswerAsync_file_witness :
  exists filePath data,
    Sample.files filePath = Some (RegularFile data) /\
    (fun _ : string => @None string) filePath = None /\
    "TWFu" = toBase64 data.
Proof.
  exact (askQuestionAndProcessAnswerAsync_file Sample.keystoreQuestion None
           (Sample.world [Typed "~"; Typed "missing"; Typed "~/release.keystore"])
           eq_refl).
Defined.

(** X7: [validateExistingFileAsync] never answers [false]: it accepts a
    regular file, and tells a path that is not a file from a path that
    does not exist. *)
Theorem validateExistingFileAsync_cases (filePath : string) (w : World) :
  (validateExistingFileAsync filePath w = VBool true <->
   exists data, files w filePath = Some (RegularFile data)) /\
  (validateExistingFileAsync filePath w = VMessage "Input is not a file." <->
   files w filePath = Some Directory) /\
  (validateExistingFileAsync filePath w = VMessage "File does not exist." <->
   files w filePath = None) /\
  validateExistingFileAsync filePath w <> VBool false.
Proof.
  unfold validateExistingFileAsync, stat.
  destruct (files w filePath) as [[data|]|]; simpl;
    repeat split; try done; try (by eauto); by intros [? [=]].
Qed.

(** ** The Android job *)

Section JobProperties.

Variable Job : Type.
Variable sanitizeJob : PartialJob.t -> Outcome Job.
Variable readSecretEnvsAsync : string -> M (option (gmap string string)).
Variable gitRootDirectoryAsync : M string.
Variable relative : string -> string -> string.

Abbreviation prepareCommon := (prepareJobCommonAsync readSecretEnvsAsync).
Abbreviation prepareGeneric :=
  (prepareGenericJobAsync readSecretEnvsAsync gitRootDirectoryAsync relative).
Abbreviation prepareManaged :=
  (prepareManagedJobAsync readSecretEnvsAsync gitRootDirectoryAsync relative).
Abbreviation prepareJob :=
  (prepareJobAsync Job sanitizeJob readSecretEnvsAsync gitRootDirectoryAsync
     relative).

(** X8: beside the build credentials, the common properties are the
    Android platform, the archive URL of the job data as project URL, and
    the secret environment as it was read: present whenever the reader
    returns an object, an empty one too, and absent otherwise.  Of the
    build context only the project directory is used. *)
Theorem prepareJobCommonAsync_properties (ctx : BuildContext.t)
    (jobData : JobData.t) (w w' : World)
    (secretEnvs : option (gmap string string)) :
  readSecretEnvsAsync
    (CommandContext.projectDir (BuildContext.commandCtx ctx)) w
  = (Ok secretEnvs, w') ->
  (exists job,
     prepareCommon ctx jobData w = (Ok job, w') /\
     CommonJobProperties.platform job = Android /\
     CommonJobProperties.projectUrl job = JobData.archiveUrl jobData /\
     Secrets.secretEnvs (CommonJobProperties.secrets job) = secretEnvs) /\
  (forall ctx',
     CommandContext.projectDir (BuildContext.commandCtx ctx') =
     CommandContext.projectDir (BuildContext.commandCtx ctx) ->
     prepareCommon ctx' jobData w = prepareCommon ctx jobData w).
Proof.
  intros Hread. split.
  - unfold prepareJobCommonAsync. rewrite bind_run, Hread.
    eexists. split; [reflexivity|]. by simpl.
  - intros ctx' Hdir. unfold prepareJobCommonAsync. rewrite !bind_run.
    by rewrite Hdir.
Qed.

Lemma prepareGenericJobAsync_run ctx jobData buildProfile w :
  prepareGeneric ctx jobData buildProfile w =
  match gitRootDirectoryAsync w with
  | (Ok root, w1) =>
      match prepareCommon ctx jobData w1 with
      | (Ok common, w2) =>
          (Ok (PartialJob.mk common Generic
                 (BuildProfile.gradleCommand buildProfile)
                 (BuildProfile.artifactPath buildProfile)
                 (orElse (relative root (cwd w1)) ".")), w2)
      | (Throw e, w2) => (Throw e, w2)
      | (Quit, w2) => (Quit, w2)
      end
  | (Throw e, w1) => (Throw e, w1)
  | (Quit, w1) => (Quit, w1)
  end.
Proof.
  unfold prepareGenericJobAsync. rewrite bind_run.
  destruct (gitRootDirectoryAsync w) as [[root| |] w1]; [|done..].
  rewrite bind_run. unfold process_cwd. rewrite bind_run.
  by destruct (prepareCommon ctx jobData w1) as [[common| |] w2].
Qed.

Lemma prepareManagedJobAsync_run ctx jobData buildProfile w :
  prepareManaged ctx jobData buildProfile w =
  match gitRootDirectoryAsync w with
  | (Ok root, w1) =>
      match prepareCommon ctx jobData w1 with
      | (Ok common, w2) =>
          (Ok (PartialJob.mk common Managed None None
                 (orElse (relative root (cwd w1)) ".")), w2)
      | (Throw e, w2) => (Throw e, w2)
      | (Quit, w2) => (Quit, w2)
      end
  | (Throw e, w1) => (Throw e, w1)
  | (Quit, w1) => (Quit, w1)
  end.
Proof.
  unfold prepareManagedJobAsync. rewrite bind_run.
  destruct (gitRootDirectoryAsync w) as [[root| |] w1]; [|done..].
  rewrite bind_run. unfold process_cwd. rewrite bind_run.
  by destruct (prepareCommon ctx jobData w1) as [[common| |] w2].
Qed.

Lemma prepareJobCommonAsync_Ok ctx jobData w common w' :
  prepareCommon ctx jobData w = (Ok common, w') ->
  CommonJobProperties.platform common = Android /\
  CommonJobProperties.projectUrl common = JobData.archiveUrl jobData.
Proof.
  unfold prepareJobCommonAsync. rewrite bind_run.
  destruct (readSecretEnvsAsync _ w) as [[envs| |] w1]; [|discriminate..].
  by intros [= <- _].
Qed.

(** X9: the job of the Generic workflow carries the Gradle command and
    the artifact path of the build profile as they are; the job of the
    Managed workflow carries neither, whatever the build profile holds. *)
Theorem workflow_fields (ctx : BuildContext.t) (jobData : JobData.t)
    (buildProfile : BuildProfile.t) (w : World) :
  (forall partialJob w',
     prepareGeneric ctx jobData buildProfile w = (Ok partialJob, w') ->
     PartialJob.type partialJob = Generic /\
     PartialJob.gradleCommand partialJob = BuildProfile.gradleCommand buildProfile /\
     PartialJob.artifactPath partialJob = BuildProfile.artifactPath buildProfile) /\
  (forall partialJob w',
     prepareManaged ctx jobData buildProfile w = (Ok partialJob, w') ->
     PartialJob.type partialJob = Managed /\
     PartialJob.gradleCommand partialJob = None /\
     PartialJob.artifactPath partialJob = None).
Proof.
  split; intros partialJob w';
    [rewrite prepareGenericJobAsync_run | rewrite prepareManagedJobAsync_run];
    destruct (gitRootDirectoryAsync w) as [[root| |] w1]; try discriminate;
    destruct (prepareCommon ctx jobData w1) as [[common| |] w2]; try discriminate;
    by intros [= <- _].
Qed.

(** X10: the project root directory of a job is never the empty string:
    in both workflows it is the working directory relative to the root of
    the repository, and [.] when that relative path is empty. *)
Theorem projectRootDirectory_not_empty (ctx : BuildContext.t)
    (jobData : JobData.t) (buildProfile : BuildProfile.t) (w : World)
    (partialJob : PartialJob.t) (w' : World) :
  prepareGeneric ctx jobData buildProfile w = (Ok partialJob, w') \/
  prepareManaged ctx jobData buildProfile w = (Ok partialJob, w') ->
  PartialJob.projectRootDirectory partialJob <> EmptyString /\
  exists root w1,
    gitRootDirectoryAsync w = (Ok root, w1) /\
    PartialJob.projectRootDirectory partialJob =
      if bool_decide (relative root (cwd w1) = EmptyString) then "."
      else relative root (cwd w1).
Proof.
  rewrite prepareGenericJobAsync_run, prepareManagedJobAsync_run.
  destruct (gitRootDirectoryAsync w) as [[root| |] w1];
    [|by intros [|]..].
  destruct (prepareCommon ctx jobData w1) as [[common| |] w2];
    [|by intros [|]..].
  intros [[= <- _] | [= <- _]]; simpl; unfold orElse;
    (split; [by case_bool_decide | by exists root, w1]).
Qed.

(** X11: a job that [prepareJobAsync] returns is the result of
    [sanitizeJob] on a job of the workflow of the build profile, with the
    archive URL as project URL; no job is returned past [sanitizeJob]. *)
Theorem prepareJobAsync_sanitized (ctx : BuildContext.t) (jobData : JobData.t)
    (w : World) (job : Job) (w' : World) :
  prepareJob ctx jobData w = (Ok job, w') ->
  exists partialJob,
    sanitizeJob partialJob = Ok job /\
    PartialJob.type partialJob =
      BuildProfile.workflow (BuildContext.buildProfile ctx) /\
    CommonJobProperties.platform (PartialJob.common partialJob) = Android /\
    CommonJobProperties.projectUrl (PartialJob.common partialJob) =
      JobData.archiveUrl jobData.
Proof.
  unfold prepareJobAsync.
  destruct (decide (_ = Generic)) as [Hg|Hg];
    [|destruct (decide (_ = Managed)) as [Hm|Hm]; [|discriminate]];
    rewrite bind_run;
    [rewrite prepareGenericJobAsync_run | rewrite prepareManagedJobAsync_run];
    destruct (gitRootDirectoryAsync w) as [[root| |] w1]; try discriminate;
    destruct (prepareCommon ctx jobData w1) as [[common| |] w2] eqn:Hcommon;
    try discriminate;
    apply prepareJobCommonAsync_Ok in Hcommon as [Hplatform Hurl];
    unfold lift; intros [= Hjob _]; eexists; (split; [exact Hjob|]); by simpl.
Qed.

(** X12: in the two known workflows a failure of a collaborator is the
    failure of [prepareJobAsync], and what comes after it is not run: a
    failure to find the root of the repository, then a failure to read
    the secret environment, then the rejection of the job by
    [sanitizeJob]. *)
Theorem prepareJobAsync_failures (ctx : BuildContext.t) (jobData : JobData.t)
    (w : World) (e : string) :
  BuildProfile.workflow (BuildContext.buildProfile ctx) = Generic \/
  BuildProfile.workflow (BuildContext.buildProfile ctx) = Managed ->
  (forall w1,
     gitRootDirectoryAsync w = (Throw e, w1) ->
     prepareJob ctx jobData w = (Throw e, w1)) /\
  (forall root w1 w2,
     gitRootDirectoryAsync w = (Ok root, w1) ->
     readSecretEnvsAsync
       (CommandContext.projectDir (BuildContext.commandCtx ctx)) w1
     = (Throw e, w2) ->
     prepareJob ctx jobData w = (Throw e, w2)) /\
  (forall partialJob w2,
     BuildProfile.workflow (BuildContext.buildProfile ctx) = Generic ->
     prepareGeneric ctx jobData (BuildContext.buildProfile ctx) w
       = (Ok partialJob, w2) ->
     sanitizeJob partialJob = Throw e ->
     prepareJob ctx jobData w = (Throw e, w2)) /\
  (forall partialJob w2,
     BuildProfile.workflow (BuildContext.buildProfile ctx) = Managed ->
     prepareManaged ctx jobData (BuildContext.buildProfile ctx) w
       = (Ok partialJob, w2) ->
     sanitizeJob partialJob = Throw e ->
     prepareJob ctx jobData w = (Throw e, w2)).
Proof.
  intros Hworkflow. unfold prepareJobAsync.
  split; [|split; [|split]].
  - intros w1 Hroot.
    destruct Hworkflow as [-> | ->]; simpl; rewrite bind_run;
      [rewrite prepareGenericJobAsync_run | rewrite prepareManagedJobAsync_run];
      by rewrite Hroot.
  - intros root w1 w2 Hroot Hread.
    destruct Hworkflow as [-> | ->]; simpl; rewrite bind_run;
      [rewrite prepareGenericJobAsync_run | rewrite prepareManagedJobAsync_run];
      rewrite Hroot; unfold prepareJobCommonAsync; rewrite bind_run;
      by rewrite Hread.
  - intros partialJob w2 -> Hpartial Hreject. simpl.
    rewrite bind_run, Hpartial. unfold lift. by rewrite Hreject.
  - intros partialJob w2 -> Hpartial Hreject. simpl.
    rewrite bind_run, Hpartial. unfold lift. by rewrite Hreject.
Qed.

End JobProperties.

Lemma prepareJobCommonAsync_properties_witness :
  exists job,
    (prepareJobCommonAsync (fun _ => ret (Some ∅))
       (Sample.context Managed false) Sample.jobData (Sample.world [])).1
    = Ok job /\
    CommonJobProperties.projectUrl job = "https://x/archive.tar.gz" /\
    Secrets.secretEnvs (CommonJobProperties.secrets job) = Some ∅.
Proof.
  destruct (prepareJobCommonAsync_properties (fun _ => ret (Some ∅))
              (Sample.context Managed false) Sample.jobData
              (Sample.world []) (Sample.world []) (Some ∅) eq_refl)
    as [(job & Hjob & _ & Hurl & Henvs) _].
  exists job. by rewrite Hjob.
Defined.

Lemma projectRootDirectory_not_empty_witness :
  exists partialJob,
    (prepareManagedJobAsync Sample.readSecretEnvsAsync
       Sample.gitRootDirectoryAsync Sample.relative
       (Sample.context Managed false) Sample.jobData
       (BuildProfile.mk Managed (Some "assembleRelease") None None)
       (Sample.world [])).1 = Ok partialJob /\
    PartialJob.projectRootDirectory partialJob <> EmptyString.
Proof.
  eexists. split; [reflexivity|].
  eapply (projectRootDirectory_not_empty Sample.readSecretEnvsAsync
            Sample.gitRootDirectoryAsync Sample.relative
            (Sample.context Managed false) Sample.jobData
            (BuildProfile.mk Managed (Some "assembleRelease") None None)
            (Sample.world []) _ (Sample.world [])).
  right. reflexivity.
Defined.

Lemma prepareJobAsync_sanitized_witness :
  exists partialJob,
    Sample.sanitizeJob partialJob =
      (prepareJobAsync PartialJob.t Sample.sanitizeJob
         Sample.readSecretEnvsAsync Sample.gitRootDirectoryAsync
         Sample.relative (Sample.context Managed false) Sample.jobData
         (Sample.world [])).1 /\
    PartialJob.type partialJob = Managed.
Proof.
  destruct (prepareJobAsync_sanitized PartialJob.t Sample.sanitizeJob
              Sample.readSecretEnvsAsync Sample.gitRootDirectoryAsync
              Sample.relative (Sample.context Managed false) Sample.jobData
              (Sample.world []) _ (Sample.world []) eq_refl)
    as (partialJob & Hjob & Htype & _).
  exists partialJob. by split.
Defined.

Lemma prepareJobAsync_failures_witness :
  (prepareJobAsync PartialJob.t Sample.sanitizeJob Sample.readSecretEnvsAsync
     (throw "not a git repository") Sample.relative
     (Sample.context Generic false) Sample.jobData (Sample.world [])).1
  = Throw "not a git repository" /\
  (prepareJobAsync PartialJob.t (fun _ => Throw "not a git repository")
     Sample.readSecretEnvsAsync Sample.gitRootDirectoryAsync Sample.relative
     (Sample.context Generic false) Sample.jobData (Sample.world [])).1
  = Throw "not a git repository".
Proof.
  split.
  - destruct (prepareJobAsync_failures PartialJob.t Sample.sanitizeJob
                Sample.readSecretEnvsAsync (throw "not a git repository")
                Sample.relative (Sample.context Generic false) Sample.jobData
                (Sample.world []) "not a git repository" (or_introl eq_refl))
      as (Hroot & _).
    by rewrite (Hroot (Sample.world []) eq_refl).
  - destruct (prepareJobAsync_failures PartialJob.t
                (fun _ => Throw "not a git repository")
                Sample.readSecretEnvsAsync Sample.gitRootDirectoryAsync
                Sample.relative (Sample.context Generic false) Sample.jobData
                (Sample.world []) "not a git repository" (or_introl eq_refl))
      as (_ & _ & Hreject & _).
    by rewrite (Hreject _ (Sample.world []) eq_refl eq_refl eq_refl).
Defined.

(** ** The iOS build *)

Lemma selectLoop_choice {A} (choices : list (Choice A)) inputs a rest :
  selectLoop choices inputs = (Ok a, rest) ->
  exists c, c ∈ choices /\ value c = a.
Proof.
  induction inputs as [|[line|i] inputs IH]; simpl; [discriminate|done|].
  destruct (choices !! i) as [c|] eqn:Hc; [|done].
  intros [= <- _]. exists c. split; [|done]. by eapply list_elem_of_lookup_2.
Qed.

Lemma sortBy_perm l1 l2 : l1 ≡ₚ l2 -> sortBy l1 = sortBy l2.
Proof.
  intros Hperm. apply (StronglySorted_unique codeUnitLe);
    [apply sortBy_sorted..|].
  by rewrite !sortBy_Permutation.
Qed.

Section SchemeProperties.

Variable EasConfig : Type.
Variable getSchemesFromXcodeproj : string -> M (list string).
Variable syncProjectConfigurationAsync : string -> M unit.
Variable createBuildContext :
  CommandContext.t -> Platform -> EasConfig -> string -> BuildContext.t.
Variable startBuildForPlatformAsync :
  BuildContext.t -> ProjectConfiguration.t -> M string.

Abbreviation resolveScheme := (resolveSchemeAsync getSchemesFromXcodeproj).
Abbreviation startIosBuild :=
  (startIosBuildAsync EasConfig getSchemesFromXcodeproj
     syncProjectConfigurationAsync createBuildContext
     startBuildForPlatformAsync).

(** X13: whenever the project has a scheme, what [resolveSchemeAsync]
    returns is one of the schemes of the project, with or without
    interaction; [undefined] is returned for a project without schemes
    only. *)
Theorem resolveSchemeAsync_member (ctx : BuildContext.t)
    (schemes : list string) (w w1 w2 : World) (result : option string) :
  getSchemesFromXcodeproj
    (CommandContext.projectDir (BuildContext.commandCtx ctx)) w
  = (Ok schemes, w1) ->
  schemes <> [] ->
  resolveScheme ctx w = (Ok result, w2) ->
  exists scheme, result = Some scheme /\ scheme ∈ schemes.
Proof.
  intros Hschemes Hne. unfold resolveSchemeAsync. rewrite bind_run, Hschemes.
  case_bool_decide as Hlen.
  - destruct schemes as [|scheme [|]]; simplify_eq/=.
    unfold ret. intros [= <- _]. exists scheme. split; [done | by left].
  - pose proof (sortBy_Permutation schemes) as Hperm.
    repeat (rewrite bind_run; simpl).
    destruct (CommandContext.nonInteractive _).
    + repeat (rewrite bind_run; simpl). unfold ret. intros [= <- _].
      destruct (filter _ (sortBy schemes)) as [|scheme rest] eqn:Hfilter; simpl.
      * destruct (sortBy schemes) as [|scheme sorted'] eqn:Hsort.
        { apply Permutation_nil_l in Hperm. by subst. }
        exists scheme. split; [done|]. rewrite <- Hperm. by left.
      * exists scheme. split; [done|]. rewrite <- Hperm.
        assert (scheme ∈ filter (fun i => Is_true (negb (includes "tvOS" i)))
                          (sortBy schemes)) as Hin by (rewrite Hfilter; by left).
        by apply list_elem_of_filter in Hin as [_ Hin].
    + rewrite bind_run. simpl.
      destruct (selectLoop _ _) as [[selected| |] rest] eqn:Hselect;
        simpl; try discriminate.
      unfold ret. intros [= <- _].
      apply selectLoop_choice in Hselect as (c & Hc & <-).
      apply list_elem_of_fmap in Hc as (scheme & -> & Hscheme).
      exists scheme. split; [done|]. by rewrite <- Hperm.
Qed.

(** X14: without interaction [resolveSchemeAsync] asks nothing and reads
    nothing from the terminal, however many schemes the project has. *)
Theorem resolveSchemeAsync_nonInteractive (ctx : BuildContext.t) (w : World) :
  CommandContext.nonInteractive (BuildContext.commandCtx ctx) = true ->
  let discovered :=
    (getSchemesFromXcodeproj
       (CommandContext.projectDir (BuildContext.commandCtx ctx)) w).2 in
  stdin (resolveScheme ctx w).2 = stdin discovered /\
  asked (resolveScheme ctx w).2 = asked discovered.
Proof.
  intros Hnon discovered. subst discovered.
  unfold resolveSchemeAsync. rewrite bind_run.
  destruct (getSchemesFromXcodeproj _ w) as [[schemes| |] w1]; simpl; [|done..].
  case_bool_decide; [done|].
  repeat (rewrite bind_run; simpl). rewrite Hnon.
  repeat (rewrite bind_run; simpl). by rewrite !asked_emit.
Qed.

(** X15: in a workflow other than Generic [startIosBuildAsync] starts
    the build at once, without a scheme: the schemes of the project are
    not looked up and the project configuration is not synchronized. *)
Theorem startIosBuildAsync_not_generic (commandCtx : CommandContext.t)
    (easConfig : EasConfig) (projectId : string) (w : World) :
  let buildCtx := createBuildContext commandCtx iOS easConfig projectId in
  BuildProfile.workflow (BuildContext.buildProfile buildCtx) <> Generic ->
  startIosBuild commandCtx easConfig projectId w =
  startBuildForPlatformAsync buildCtx (ProjectConfiguration.mk None) w.
Proof.
  intros buildCtx Hworkflow. unfold startIosBuildAsync. fold buildCtx.
  rewrite !decide_False by done. by rewrite !bind_run.
Qed.

(** X16: in the Generic workflow a scheme set in the build profile is the
    scheme of the build: the schemes of the project are not looked up and
    nothing is asked; the project configuration is synchronized, then the
    build is started. *)
Theorem startIosBuildAsync_configured_scheme (commandCtx : CommandContext.t)
    (easConfig : EasConfig) (projectId : string) (w : World)
    (scheme : string) :
  let buildCtx := createBuildContext commandCtx iOS easConfig projectId in
  BuildProfile.workflow (BuildContext.buildProfile buildCtx) = Generic ->
  BuildProfile.scheme (BuildContext.buildProfile buildCtx) = Some scheme ->
  startIosBuild commandCtx easConfig projectId w =
  (let* _ :=
     syncProjectConfigurationAsync (CommandContext.projectDir commandCtx) in
   startBuildForPlatformAsync buildCtx
     (ProjectConfiguration.mk (Some scheme))) w.
Proof.
  intros buildCtx Hworkflow Hscheme. unfold startIosBuildAsync. fold buildCtx.
  rewrite Hworkflow, Hscheme. simpl. by rewrite bind_run.
Qed.

(** X17: in the Generic workflow without a scheme in the build profile, a
    failure to look up the schemes of the project ends
    [startIosBuildAsync] with that failure, before the project
    configuration is synchronized; and a failure to synchronize it ends
    it before the build is started. *)
Theorem startIosBuildAsync_failures (commandCtx : CommandContext.t)
    (easConfig : EasConfig) (projectId : string) (w : World) (e : string) :
  let buildCtx := createBuildContext commandCtx iOS easConfig projectId in
  BuildProfile.workflow (BuildContext.buildProfile buildCtx) = Generic ->
  BuildProfile.scheme (BuildContext.buildProfile buildCtx) = None ->
  (forall w1,
     getSchemesFromXcodeproj
       (CommandContext.projectDir (BuildContext.commandCtx buildCtx)) w
     = (Throw e, w1) ->
     startIosBuild commandCtx easConfig projectId w = (Throw e, w1)) /\
  (forall scheme w1 w2,
     resolveScheme buildCtx w = (Ok scheme, w1) ->
     syncProjectConfigurationAsync (CommandContext.projectDir commandCtx) w1
     = (Throw e, w2) ->
     startIosBuild commandCtx easConfig projectId w = (Throw e, w2)).
Proof.
  intros buildCtx Hworkflow Hscheme. unfold startIosBuildAsync. fold buildCtx.
  rewrite Hworkflow, Hscheme. simpl. split.
  - intros w1 Hfail. rewrite bind_run. unfold resolveSchemeAsync.
    rewrite bind_run. by rewrite Hfail.
  - intros scheme w1 w2 Hresolve Hsync.
    rewrite bind_run, Hresolve, bind_run. by rewrite Hsync.
Qed.

End SchemeProperties.

(** X18: the scheme that [resolveSchemeAsync] settles on, and all that it
    prints and asks, do not depend on the order in which the schemes of
    the project are found. *)
Theorem resolveSchemeAsync_order
    (getSchemes1 getSchemes2 : string -> M (list string))
    (ctx : BuildContext.t) (schemes1 schemes2 : list string) (w w1 : World) :
  getSchemes1 (CommandContext.projectDir (BuildContext.commandCtx ctx)) w
    = (Ok schemes1, w1) ->
  getSchemes2 (CommandContext.projectDir (BuildContext.commandCtx ctx)) w
    = (Ok schemes2, w1) ->
  schemes1 ≡ₚ schemes2 ->
  resolveSchemeAsync getSchemes1 ctx w = resolveSchemeAsync getSchemes2 ctx w.
Proof.
  intros H1 H2 Hperm. unfold resolveSchemeAsync. rewrite !bind_run, H1, H2.
  rewrite (Permutation_length Hperm).
  case_bool_decide as Hlen.
  - destruct schemes2 as [|scheme [|]]; simplify_eq/=.
    by apply Permutation_singleton_r in Hperm as ->.
  - by rewrite (sortBy_perm schemes1 schemes2).
Qed.

Lemma resolveSchemeAsync_member_witness :
  exists scheme,
    (resolveSchemeAsync (Sample.getSchemesFromXcodeproj ["B"; "A"])
       (Sample.context Generic false) (Sample.world [Pick 1%nat])).1
    = Ok (Some scheme) /\
    scheme ∈ ["B"; "A"].
Proof.
  destruct (resolveSchemeAsync_member
              (Sample.getSchemesFromXcodeproj ["B"; "A"])
              (Sample.context Generic false) ["B"; "A"]
              (Sample.world [Pick 1%nat]) (Sample.world [Pick 1%nat])
              _ _ eq_refl ltac:(discriminate) eq_refl)
    as (scheme & [= <-] & Hin).
  by exists "B".
Defined.

Lemma resolveSchemeAsync_nonInteractive_witness :
  stdin (resolveSchemeAsync (Sample.getSchemesFromXcodeproj ["B"; "A"])
           (Sample.context Generic true) (Sample.world [Pick 1%nat])).2
  = [Pick 1%nat].
Proof.
  apply (resolveSchemeAsync_nonInteractive
           (Sample.getSchemesFromXcodeproj ["B"; "A"])
           (Sample.context Generic true) (Sample.world [Pick 1%nat]) eq_refl).
Defined.

Lemma startIosBuildAsync_not_generic_witness :
  (startIosBuildAsync unit (fun _ => throw "no Xcode project")
     Sample.syncProjectConfigurationAsync
     (Sample.createBuildContextWith (BuildProfile.mk Managed None None None))
     Sample.startBuildForPlatformAsync
     (CommandContext.mk "/home/dev/app" true) tt "id" (Sample.world [])).1
  = Ok "build of undefined".
Proof.
  rewrite startIosBuildAsync_not_generic; [reflexivity | discriminate].
Defined.

Lemma startIosBuildAsync_configured_scheme_witness :
  (startIosBuildAsync unit (fun _ => throw "no Xcode project")
     Sample.syncProjectConfigurationAsync
     (Sample.createBuildContextWith
        (BuildProfile.mk Generic None None (Some "App")))
     Sample.startBuildForPlatformAsync
     (CommandContext.mk "/home/dev/app" false) tt "id" (Sample.world [])).1
  = Ok "build of App".
Proof.
  rewrite (startIosBuildAsync_configured_scheme unit
             (fun _ => throw "no Xcode project")
             Sample.syncProjectConfigurationAsync
             (Sample.createBuildContextWith
                (BuildProfile.mk Generic None None (Some "App")))
             Sample.startBuildForPlatformAsync
             (CommandContext.mk "/home/dev/app" false) tt "id"
             (Sample.world []) "App" eq_refl eq_refl).
  reflexivity.
Defined.

Lemma startIosBuildAsync_failures_witness :
  (startIosBuildAsync unit (fun _ => throw "no Xcode project")
     Sample.syncProjectConfigurationAsync Sample.createBuildContext
     Sample.startBuildForPlatformAsync
     (CommandContext.mk "/home/dev/app" true) tt "id" (Sample.world [])).1
  = Throw "no Xcode project" /\
  (startIosBuildAsync unit (Sample.getSchemesFromXcodeproj ["App"])
     (fun _ => throw "no Xcode project") Sample.createBuildContext
     Sample.startBuildForPlatformAsync
     (CommandContext.mk "/home/dev/app" true) tt "id" (Sample.world [])).1
  = Throw "no Xcode project".
Proof.
  split.
  - destruct (startIosBuildAsync_failures unit
                (fun _ => throw "no Xcode project")
                Sample.syncProjectConfigurationAsync Sample.createBuildContext
                Sample.startBuildForPlatformAsync
                (CommandContext.mk "/home/dev/app" true) tt "id"
                (Sample.world []) "no Xcode project" eq_refl eq_refl)
      as [Hlookup _].
    by rewrite (Hlookup (Sample.world []) eq_refl).
  - destruct (startIosBuildAsync_failures unit
                (Sample.getSchemesFromXcodeproj ["App"])
                (fun _ => throw "no Xcode project") Sample.createBuildContext
                Sample.startBuildForPlatformAsync
                (CommandContext.mk "/home/dev/app" true) tt "id"
                (Sample.world []) "no Xcode project" eq_refl eq_refl)
      as [_ Hsync].
    by rewrite (Hsync (Some "App") (Sample.world []) (Sample.world [])
                  eq_refl eq_refl).
Defined.

Lemma resolveSchemeAsync_order_witness :
  resolveSchemeAsync (Sample.getSchemesFromXcodeproj ["AppTV"; "App"; "Demo"])
    (Sample.context Generic true) (Sample.world []) =
  resolveSchemeAsync (Sample.getSchemesFromXcodeproj ["Demo"; "AppTV"; "App"])
    (Sample.context Generic true) (Sample.world []).
Proof.
  apply (resolveSchemeAsync_order _ _ _ ["AppTV"; "App"; "Demo"]
           ["Demo"; "AppTV"; "App"] _ (Sample.world []));
    [reflexivity | reflexivity|].
  by rewrite (Permutation_app_comm ["AppTV"; "App"] ["Demo"]).
Defined.

(** ** White space around a path *)

Section Strings.
Open Scope nat_scope.

Lemma append_cons x a b : String x a +:+ b = String x (a +:+ b).
Proof. reflexivity. Qed.

Lemma append_nil b : EmptyString +:+ b = b.
Proof. reflexivity. Qed.

Lemma append_assoc a b c : (a +:+ b) +:+ c = a +:+ (b +:+ c).
Proof.
  induction a as [|x a IH]; [done|]. rewrite !append_cons. by rewrite IH.
Qed.

Lemma append_empty_r a : a +:+ EmptyString = a.
Proof.
  induction a as [|x a IH]; [done|]. rewrite append_cons. by rewrite IH.
Qed.

Lemma length_append a b :
  String.length (a +:+ b) = String.length a + String.length b.
Proof.
  induction a as [|x a IH]; [done|]. rewrite append_cons. simpl.
  by rewrite IH.
Qed.

Lemma rev_app_append a b acc :
  String.rev_app (a +:+ b) acc = String.rev_app b (String.rev_app a acc).
Proof.
  revert acc. induction a as [|x a IH]; intros acc; [done|]. simpl. apply IH.
Qed.

Lemma rev_app_rev a acc : String.rev_app a acc = String.rev a +:+ acc.
Proof.
  unfold String.rev. revert acc.
  induction a as [|x a IH]; intros acc; [done|]. simpl.
  rewrite IH, (IH (String x EmptyString)). by rewrite append_assoc.
Qed.

Lemma rev_append a b : String.rev (a +:+ b) = String.rev b +:+ String.rev a.
Proof.
  unfold String.rev at 1. rewrite rev_app_append, rev_app_rev.
  unfold String.rev at 2. done.
Qed.

Lemma length_rev_app a acc :
  String.length (String.rev_app a acc) = String.length a + String.length acc.
Proof.
  revert acc. induction a as [|x a IH]; intros acc; [done|]. simpl.
  rewrite IH. simpl. lia.
Qed.

Lemma length_rev a : String.length (String.rev a) = String.length a.
Proof. unfold String.rev. rewrite length_rev_app. simpl. lia. Qed.

Lemma stripPrefix_Some p s r : stripPrefix p s = Some r <-> s = p +:+ r.
Proof.
  revert s. induction p as [|a p IH]; intros s; simpl.
  - split; [by intros [= ->] | by intros ->].
  - destruct s as [|b s]; [split; discriminate|].
    case_bool_decide as Hab.
    + subst b. rewrite IH. split; [by intros -> | by intros [= ->]].
    + split; [discriminate | intros [= ? _]; by subst].
Qed.

Lemma isPrefix_true p s : isPrefix p s = true <-> exists r, s = p +:+ r.
Proof.
  revert s. induction p as [|a p IH]; intros s; simpl.
  - split; [by exists s | done].
  - destruct s as [|b s]; [split; [discriminate | by intros [? ?]]|].
    rewrite andb_true_iff, bool_decide_eq_true, IH. split.
    + intros [-> [r ->]]. by exists r.
    + intros [r [= -> ->]]. split; [done | by exists r].
Qed.

(** Two ways to cut one string: one of the two first parts starts the
    other. *)
Lemma append_eq_append a b c d :
  a +:+ b = c +:+ d ->
  (exists t, a = c +:+ t /\ d = t +:+ b) \/
  (exists t, t <> EmptyString /\ c = a +:+ t /\ b = t +:+ d).
Proof.
  revert c. induction a as [|x a IH]; intros c.
  - rewrite append_nil. intros ->. destruct c as [|y c].
    + left. by exists EmptyString.
    + right. by exists (String y c).
  - destruct c as [|y c].
    + rewrite append_nil. intros <-. left. by exists (String x a).
    + rewrite !append_cons. intros [= -> H].
      destruct (IH _ H) as [[t [-> ->]]|[t (Ht & -> & ->)]].
      * left. by exists t.
      * right. by exists t.
Qed.

Lemma laterParts_append p t :
  p <> EmptyString -> t <> EmptyString -> t ∈ laterParts (p +:+ t).
Proof.
  intros Hp Ht. induction p as [|x p IH]; [done|].
  destruct p as [|y p].
  - simpl. destruct t as [|c t]; [done|]. apply elem_of_cons. by left.
  - change (String x (String y p) +:+ t)
      with (String x (String y (p +:+ t))).
    cbn [laterParts]. apply elem_of_cons. right. by apply IH.
Qed.

Lemma first_append a b : a <> EmptyString -> first (a +:+ b) = first a.
Proof. by destruct a. Qed.

End Strings.

Section Marks.
Open Scope nat_scope.
Variable marks : list string.

Lemma stripMark_Some s r :
  stripMark marks s = Some r -> exists m, m ∈ marks /\ s = m +:+ r.
Proof.
  induction marks as [|m0 l IH]; simpl; [discriminate|].
  destruct (stripPrefix m0 s) as [r0|] eqn:H0.
  - intros [= ->]. apply stripPrefix_Some in H0. exists m0. split; [|done].
    apply elem_of_cons. by left.
  - intros H. destruct (IH H) as (m & Hm & ->). exists m. split; [|done].
    apply elem_of_cons. by right.
Qed.

Lemma Marked_app a b : Marked marks a -> Marked marks b -> Marked marks (a +:+ b).
Proof.
  intros Ha Hb. induction Ha as [|m s Hm Hs IH]; [done|].
  rewrite append_assoc. by constructor.
Qed.

Lemma Marked_single m : m ∈ marks -> Marked marks m.
Proof.
  intros Hm. rewrite <- (append_empty_r m). constructor; [done | constructor].
Qed.

Lemma stripMarks_Marked n s :
  stripMarks marks n s = EmptyString -> Marked marks s.
Proof.
  revert s. induction n as [|n IH]; intros s; simpl.
  - intros ->. constructor.
  - destruct (stripMark marks s) as [r|] eqn:Hs.
    + intros Hr. destruct (stripMark_Some _ _ Hs) as (m & Hm & ->).
      constructor; [done | by apply IH].
    + intros ->. constructor.
Qed.

Hypothesis code : isCode marks = true.

Lemma code_nonempty m : m ∈ marks -> m <> EmptyString.
Proof.
  intros Hm. unfold isCode in code. rewrite forallb_forall in code.
  apply list_elem_of_In, code, andb_true_iff, proj1 in Hm.
  by apply negb_true_iff, bool_decide_eq_false in Hm.
Qed.

Lemma code_prefix m m' :
  m ∈ marks -> m' ∈ marks -> isPrefix m m' = true -> m = m'.
Proof.
  intros Hm Hm' Hp. unfold isCode in code. rewrite forallb_forall in code.
  apply list_elem_of_In, code, andb_true_iff, proj2 in Hm.
  rewrite forallb_forall in Hm. apply list_elem_of_In, Hm in Hm'.
  rewrite Hp in Hm'. simpl in Hm'. by apply bool_decide_eq_true in Hm'.
Qed.

Lemma code_unique m m' r r' :
  m ∈ marks -> m' ∈ marks -> m +:+ r = m' +:+ r' -> m = m' /\ r = r'.
Proof.
  intros Hm Hm' H.
  assert (m = m') as <-.
  { destruct (append_eq_append _ _ _ _ H) as [[t [Ht _]]|[t (_ & Ht & _)]].
    - symmetry. apply code_prefix; [done..|]. apply isPrefix_true. by exists t.
    - apply code_prefix; [done..|]. apply isPrefix_true. by exists t. }
  split; [done|]. by apply (inj (String.app m)).
Qed.

Lemma stripMark_append m r : m ∈ marks -> stripMark marks (m +:+ r) = Some r.
Proof.
  intros Hm.
  assert (forall l, (forall m', m' ∈ l -> m' ∈ marks) -> m ∈ l ->
            stripMark l (m +:+ r) = Some r) as H; [|by apply H].
  induction l as [|m0 l IH]; intros Hl Hin; [by apply elem_of_nil in Hin|].
  simpl. destruct (stripPrefix m0 (m +:+ r)) as [r0|] eqn:H0.
  - apply stripPrefix_Some in H0.
    destruct (code_unique _ _ _ _ Hm (Hl m0 ltac:(apply elem_of_cons; by left)) H0)
      as [_ ->]. done.
  - apply elem_of_cons in Hin as [->|Hin].
    + assert (stripPrefix m0 (m0 +:+ r) = Some r) as H1
        by by apply stripPrefix_Some.
      congruence.
    + apply IH; [|done]. intros m' Hm'. apply Hl, elem_of_cons. by right.
Qed.

Lemma stripMark_shorter s r :
  stripMark marks s = Some r -> String.length r < String.length s.
Proof.
  intros (m & Hm & ->)%stripMark_Some. rewrite length_append.
  apply code_nonempty in Hm. destruct m; [done | simpl; lia].
Qed.

Lemma stripMark_empty : stripMark marks EmptyString = None.
Proof.
  destruct (stripMark marks EmptyString) as [r|] eqn:H; [|done].
  apply stripMark_shorter in H. simpl in H. lia.
Qed.

(** More steps than the string has characters change nothing. *)
Lemma stripMarks_fuel n k s :
  String.length s <= n -> String.length s <= k ->
  stripMarks marks n s = stripMarks marks k s.
Proof.
  revert k s. induction n as [|n IH]; intros k s Hn Hk.
  - destruct s; [|simpl in Hn; lia].
    destruct k; [done|]. simpl. by rewrite stripMark_empty.
  - destruct k as [|k].
    + destruct s; [|simpl in Hk; lia]. simpl. by rewrite stripMark_empty.
    + simpl. destruct (stripMark marks s) as [r|] eqn:Hs; [|done].
      apply stripMark_shorter in Hs. apply IH; lia.
Qed.

Lemma stripMarks_Marked_append pre x n :
  Marked marks pre -> String.length (pre +:+ x) <= n ->
  stripMarks marks n (pre +:+ x) = stripMarks marks (String.length x) x.
Proof.
  intros Hpre. revert n. induction Hpre as [|m s Hm Hs IH]; intros n Hn.
  - by apply stripMarks_fuel.
  - rewrite append_assoc in *. rewrite length_append in Hn.
    pose proof (code_nonempty _ Hm) as Hne.
    destruct n as [|n]; [destruct m; [done | simpl in Hn; lia]|].
    simpl. rewrite stripMark_append by done.
    apply IH. destruct m; [done | simpl in Hn; lia].
Qed.

Lemma Marked_stripMarks s n :
  Marked marks s -> String.length s <= n -> stripMarks marks n s = EmptyString.
Proof.
  intros Hs Hn. rewrite <- (append_empty_r s) in Hn |- * at 1.
  by rewrite stripMarks_Marked_append.
Qed.

Hypothesis synchronizing : isSynchronizing marks = true.

Lemma stripMark_None_append p q :
  stripMark marks p = None -> p <> EmptyString -> Marked marks q ->
  stripMark marks (p +:+ q) = None.
Proof.
  intros Hp Hne Hq.
  destruct (stripMark marks (p +:+ q)) as [r|] eqn:H; [|done]. exfalso.
  destruct (stripMark_Some _ _ H) as (m & Hm & Heq).
  destruct (append_eq_append _ _ _ _ Heq) as [[t [-> _]]|[t (Ht & -> & ->)]].
  - rewrite stripMark_append in Hp by done. discriminate.
  - inversion Hq as [He|m' s' Hm' Hs' He].
    { destruct t; [done | discriminate]. }
    unfold isSynchronizing in synchronizing.
    rewrite forallb_forall in synchronizing.
    apply list_elem_of_In, synchronizing in Hm.
    rewrite forallb_forall in Hm.
    pose proof (laterParts_append p t Hne Ht) as Hin.
    apply list_elem_of_In, Hm in Hin. rewrite forallb_forall in Hin.
    pose proof Hm' as Hm''. apply list_elem_of_In, Hin in Hm''.
    apply negb_true_iff, bool_decide_eq_false in Hm''. apply Hm''.
    rewrite <- (first_append t r) by done. rewrite <- He.
    apply first_append. by apply code_nonempty.
Qed.

Lemma stripMarks_append q n k p :
  Marked marks q ->
  String.length p <= n -> String.length (p +:+ q) <= k ->
  stripMarks marks n p <> EmptyString ->
  stripMarks marks k (p +:+ q) = stripMarks marks n p +:+ q.
Proof.
  intros Hq. revert k p. induction n as [|n IH]; intros k p Hn Hk Hne.
  - destruct p; [done | simpl in Hn; lia].
  - simpl in Hne |- *. destruct (stripMark marks p) as [r|] eqn:Hp.
    + pose proof (stripMark_shorter _ _ Hp) as Hlt.
      destruct (stripMark_Some _ _ Hp) as (m & Hm & ->).
      rewrite append_assoc in *. rewrite !length_append in *.
      destruct k as [|k]; [lia|]. simpl. rewrite stripMark_append by done.
      apply IH; [lia| rewrite length_append; lia | done].
    + destruct k as [|k]; [done|]. simpl.
      by rewrite stripMark_None_append.
Qed.

End Marks.

Lemma Marked_rev s :
  Marked whiteSpace s -> Marked (map String.rev whiteSpace) (String.rev s).
Proof.
  induction 1 as [|m s Hm Hs IH]; [constructor|].
  rewrite rev_append. apply Marked_app; [done|].
  apply Marked_single. apply list_elem_of_In, in_map. by apply list_elem_of_In.
Qed.

Lemma trimStart_Blank s : trimStart s = EmptyString <-> Blank s.
Proof.
  split; [apply stripMarks_Marked|].
  intros Hs. by apply Marked_stripMarks.
Qed.

Lemma trimStart_append_Blank pre x :
  Blank pre -> trimStart (pre +:+ x) = trimStart x.
Proof. intros Hpre. by apply stripMarks_Marked_append. Qed.

Lemma trimEnd_append_Blank x post :
  Blank post -> trimEnd (x +:+ post) = trimEnd x.
Proof.
  intros Hpost. unfold trimEnd. f_equal. rewrite rev_append.
  rewrite stripMarks_Marked_append;
    [by rewrite length_rev | done | by apply Marked_rev |].
  by rewrite !length_append, !length_rev, Nat.add_comm.
Qed.

Lemma trim_surrounded pre p post :
  Blank pre -> Blank post -> trim (pre +:+ p +:+ post) = trim p.
Proof.
  intros Hpre Hpost. unfold trim. rewrite trimStart_append_Blank by done.
  destruct (decide (trimStart p = EmptyString)) as [Hp|Hp].
  - rewrite Hp. apply trimStart_Blank in Hp.
    assert (trimStart (p +:+ post) = EmptyString) as ->; [|done].
    apply trimStart_Blank. by apply Marked_app.
  - unfold trimStart at 1.
    rewrite (stripMarks_append whiteSpace eq_refl eq_refl post
               (String.length p)); [by apply trimEnd_append_Blank|done..].
Qed.

(** X19: white space before and after the path that is typed does not
    count: with or without it [produceAbsolutePath] gives the same path. *)
Theorem produceAbsolutePath_white_space (pre filePath post : string)
    (w : World) :
  Blank pre -> Blank post ->
  produceAbsolutePath (pre +:+ filePath +:+ post) w =
  produceAbsolutePath filePath w.
Proof.
  intros Hpre Hpost. unfold produceAbsolutePath.
  by rewrite trim_surrounded.
Qed.

Lemma produceAbsolutePath_white_space_witness :
  produceAbsolutePath
    (stringOfCodePoints [160; 32] +:+ "~/release.keystore" +:+
     stringOfCodePoints [8232; 9])
    (Sample.world []) =
  produceAbsolutePath "~/release.keystore" (Sample.world []).
Proof.
  apply produceAbsolutePath_white_space; apply trimStart_Blank; reflexivity.
Defined.

(** ** The interactive choice of a scheme *)

(** X20: with interaction and a number of schemes other than one,
    [resolveSchemeAsync] prints the schemes in ascending order and where
    to set the scheme, and then asks one question, which scheme to build;
    a blank line follows when an answer was given. *)
Theorem resolveSchemeAsync_interactive
    (getSchemesFromXcodeproj : string -> M (list string))
    (ctx : BuildContext.t) (schemes : list string) (w w1 : World) :
  getSchemesFromXcodeproj
    (CommandContext.projectDir (BuildContext.commandCtx ctx)) w
  = (Ok schemes, w1) ->
  length schemes <> 1%nat ->
  CommandContext.nonInteractive (BuildContext.commandCtx ctx) = false ->
  exists last,
    output (resolveSchemeAsync getSchemesFromXcodeproj ctx w).2 =
      output w1 ++
      [ NewLine;
        Logged ("We've found multiple schemes in your Xcode project: "
                  +:+ join ", " (sortBy schemes));
        Logged "You can specify the scheme you want to build at builds.ios.PROFILE_NAME.scheme in eas.json.";
        Prompted select "Which scheme would you like to build now?" None ]
      ++ last /\
    last = match (resolveSchemeAsync getSchemesFromXcodeproj ctx w).1 with
           | Ok _ => [NewLine]
           | _ => []
           end.
Proof.
  intros Hschemes Hlen Hinteractive. unfold resolveSchemeAsync.
  rewrite bind_run, Hschemes, bool_decide_eq_false_2 by done.
  repeat (rewrite bind_run; simpl). rewrite Hinteractive.
  rewrite bind_run. simpl.
  destruct (selectLoop _ _) as [[selected| |] rest]; simpl;
    eexists; (split; [|reflexivity]); by rewrite <- ?app_assoc.
Qed.

Lemma resolveSchemeAsync_interactive_witness :
  asked (resolveSchemeAsync (Sample.getSchemesFromXcodeproj ["B"; "A"])
           (Sample.context Generic false) (Sample.world [Pick 0%nat])).2
  = [Prompted select "Which scheme would you like to build now?" None].
Proof.
  destruct (resolveSchemeAsync_interactive
              (Sample.getSchemesFromXcodeproj ["B"; "A"])
              (Sample.context Generic false) ["B"; "A"]
              (Sample.world [Pick 0%nat]) (Sample.world [Pick 0%nat])
              eq_refl ltac:(discriminate) eq_refl) as (last & Hout & ->).
  unfold asked. rewrite Hout. reflexivity.
Defined.
